(** * Relay connection wrappers (package relay)

    A shallow embedding of the four connection wrappers of the relay
    connector: [tcpConn], [udpConn], [bindConn] and [bindUDPConn], together
    with [readResponse].  The wrappers sit on top of a [net.Conn]; the
    transport is an interface in the source and a type class here. *)

From Stdlib Require Import ZArith String Bool Lia DecimalString.
From Stdlib.Strings Require Import Byte.
From Stdlib Require Import List.
Import ListNotations.
Local Open Scope string_scope.
Local Open Scope list_scope.
Local Open Scope nat_scope.

Set Implicit Arguments.

(** ** Bytes and the big-endian 16-bit codec *)

(** Go's conversion [byte(v)] of an unsigned integer: the low eight bits. *)
Definition byte_of_Z (z : Z) : byte :=
  match Byte.of_N (Z.to_N (z mod 256)) with
  | Some b => b
  | None => x00
  end.

Definition Z_of_byte (b : byte) : Z := Z.of_N (Byte.to_N b).

(** Go's conversion [uint16(n)] of an [int]. *)
Definition uint16 (n : Z) : Z := n mod 65536.

(** [math.MaxUint16] *)
Definition MaxUint16 : Z := 65535.

(** [binary.BigEndian.PutUint16(b, v)]: [b[0] = byte(v >> 8)], [b[1] = byte(v)]. *)
Definition PutUint16 (v : Z) : list byte :=
  [byte_of_Z (Z.shiftr v 8); byte_of_Z v].

(** [binary.BigEndian.Uint16(b)]: [uint16(b[1]) | uint16(b[0])<<8]. *)
Definition Uint16 (b : list byte) : Z :=
  Z.lor (Z_of_byte (nth 1 b x00)) (Z.shiftl (Z_of_byte (nth 0 b x00)) 8).

(** The builtin [copy(dst, src)]: the first [min (len dst) (len src)] bytes of
    [src] overwrite the start of [dst]; the result is [dst] afterwards and the
    number of bytes copied. *)
Definition copy (dst src : list byte) : list byte * nat :=
  let n := Nat.min (length dst) (length src) in
  (firstn n src ++ skipn n dst, n).

Arguments copy : simpl never.

(** ** Errors *)

Inductive error : Type :=
| EOF                        (* io.EOF *)
| ErrUnexpectedEOF           (* io.ErrUnexpectedEOF *)
| ErrShortWrite              (* io.ErrShortWrite *)
| ErrBadVersion              (* relay.ErrBadVersion *)
| errorString (s : string)   (* errors.New(s), fmt.Errorf(...) *)
| netError (s : string).     (* an error of the transport *)

(** The [Error()] method: how an error renders. *)
Definition Error (e : error) : string :=
  match e with
  | EOF => "EOF"
  | ErrUnexpectedEOF => "unexpected EOF"
  | ErrShortWrite => "short write"
  | ErrBadVersion => "bad version"
  | errorString s => s
  | netError s => s
  end.

(** The verb [%d] applied to a [uint8]. *)
Definition itoa (b : byte) : string :=
  NilZero.string_of_uint (N.to_uint (Byte.to_N b)).

(** [fmt.Errorf("%d %s", code, text)] *)
Definition Errorf_d_s (code : byte) (text : string) : error :=
  errorString (itoa code ++ " " ++ text)%string.

(** ** Collaborators *)

(** [net.Addr], by its printed form. *)
Definition Addr : Type := string.

(** Modelled from the spec: [relay.Response] belongs to the imported package
    github.com/go-gost/relay, which is not part of the sources; the spec gives
    the record as [{version: byte, status: byte}]. *)
Record Response : Type := { Version : byte; Status : byte }.

(** The transport, [net.Conn], with the two library readers the wrappers
    apply to it.  Every operation returns the transport afterwards.

    - [conn_Read t n] is [t.Read(b)] with [len(b) = n]; it returns the bytes
      placed at the start of [b].
    - [conn_Write t p] is [t.Write(p)]; it returns the count.
    - [io_ReadFull t n] is [io.ReadFull(t, b)] with [len(b) = n].
    - [Response_ReadFrom t] is [resp.ReadFrom(t)] on a zero [relay.Response];
      it returns the record as filled in.

    The laws are the contracts of [io.Reader], [io.Writer] and [io.ReadFull].

    A read returns the bytes it delivered and the wrappers place them at the
    start of the caller's buffer.  That [io.Reader] lets a transport use the
    rest of the slice it was handed as scratch space is not modelled: the
    bytes of a buffer past the count are those the caller had only on a
    transport that writes no more than it delivers, as the in-memory one
    below does. *)
Class Transport (T : Type) : Type := {
  conn_Read : T -> nat -> list byte * option error * T;
  conn_Write : T -> list byte -> nat * option error * T;
  conn_LocalAddr : T -> Addr;
  conn_RemoteAddr : T -> Addr;
  io_ReadFull : T -> nat -> list byte * option error * T;
  Response_ReadFrom : T -> Response * option error * T;
  conn_Read_le : forall t n, length (fst (fst (conn_Read t n))) <= n;
  conn_Write_le : forall t p, fst (fst (conn_Write t p)) <= length p;
  conn_Write_short : forall t p,
    fst (fst (conn_Write t p)) < length p -> snd (fst (conn_Write t p)) <> None;
  io_ReadFull_le : forall t n, length (fst (fst (io_ReadFull t n))) <= n;
  io_ReadFull_full : forall t n,
    snd (fst (io_ReadFull t n)) = None <-> length (fst (fst (io_ReadFull t n))) = n
}.

(** The protocol constants [relay.Version1] and [relay.StatusOK] and the
    status-text lookup [xrelay.StatusText]; all three are imported. *)
Class Protocol : Type := {
  Version1 : byte;
  StatusOK : byte;
  StatusText : byte -> string
}.

(** The scratch-buffer pool: [bufpool.Get(size)] hands out a slice of length
    [size] whose contents are whatever the pool holds; [bufpool.Put] has no
    effect a caller can see. *)
Class BufPool : Type := {
  bufpool_Get : nat -> list byte;
  bufpool_Get_length : forall n, length (bufpool_Get n) = n
}.

(** [bytes.Buffer]: the unread bytes.  A [*bytes.Buffer] is an [option], with
    [None] for [nil]. *)
Definition Buffer : Type := list byte.

(** ** readResponse *)

Section ReadResponse.
Context {T : Type} `{Transport T} `{Protocol}.

Definition readResponse (r : T) : option error * T :=
  let '(resp, err, r1) := Response_ReadFrom r in
  match err with
  | Some e => (Some e, r1)
  | None =>
      if negb (Byte.eqb (Version resp) Version1) then (Some ErrBadVersion, r1)
      else if negb (Byte.eqb (Status resp) StatusOK)
           then (Some (Errorf_d_s (Status resp) (StatusText (Status resp))), r1)
           else (None, r1)
  end.
End ReadResponse.

(** ** bytes.Buffer *)

Section BytesBuffer.
Context {T : Type} `{Transport T}.

(** [buf.Write(p)] appends. *)
Definition Buffer_Write (buf : Buffer) (p : list byte) : Buffer := buf ++ p.

(** [buf.WriteTo(w)]: one [w.Write] of the unread bytes, which advances the
    read offset by the count written; the buffer is reset only when the
    whole of it went out without an error.  The library panics on a count
    above the length, which [conn_Write_le] excludes. *)
Definition Buffer_WriteTo (buf : Buffer) (w : T) : option error * Buffer * T :=
  if 0 <? length buf then
    let '(m, e, w1) := conn_Write w buf in
    let buf1 := skipn m buf in
    match e with
    | Some e => (Some e, buf1, w1)
    | None =>
        if negb (m =? length buf) then (Some ErrShortWrite, buf1, w1)
        else (None, [], w1)
    end
  else (None, [], w).
End BytesBuffer.

(** ** tcpConn *)

Module tcpConn.
Section Defs.
Context {T : Type} `{Transport T} `{Protocol}.

(** [once] is the done flag of the [sync.Once]; the mutex [mu] only
    serialises writers and has no sequential content. *)
Record t : Type := mk {
  Conn : T;
  wbuf : option Buffer;
  once : bool
}.

(** The result is [(n, err, b)] with [b] the caller's buffer afterwards. *)
Definition Read (c : t) (b : list byte) : (nat * option error * list byte) * t :=
  let '(err, conn1) :=
    if once c then (None, Conn c)
    else match wbuf c with
         | Some _ => readResponse (Conn c)
         | None => (None, Conn c)
         end in
  match err with
  | Some e => ((0, Some e, b), mk conn1 (wbuf c) true)
  | None =>
      let '(d, e, conn2) := conn_Read conn1 (length b) in
      ((length d, e, fst (copy b d)), mk conn2 (wbuf c) true)
  end.

Definition Write (c : t) (b : list byte) : (nat * option error) * t :=
  let n := length b in
  let direct :=
    let '(_, err, conn1) := conn_Write (Conn c) b in
    ((n, err), mk conn1 (wbuf c) (once c)) in
  match wbuf c with
  | Some w =>
      if 0 <? length w then
        let w1 := Buffer_Write w b in
        let '(_, err, conn1) := conn_Write (Conn c) w1 in
        ((n, err), mk conn1 (Some []) (once c))
      else direct
  | None => direct
  end.
End Defs.
Arguments t T : clear implicits.
End tcpConn.

(** ** udpConn *)

Module udpConn.
Section Defs.
Context {T : Type} `{Transport T} `{Protocol} `{BufPool}.

Record t : Type := mk {
  Conn : T;
  wbuf : option Buffer;
  once : bool
}.

Definition Read (c : t) (b : list byte) : (nat * option error * list byte) * t :=
  let '(err, conn1) :=
    if once c then (None, Conn c)
    else match wbuf c with
         | Some _ => readResponse (Conn c)
         | None => (None, Conn c)
         end in
  match err with
  | Some e => ((0, Some e, b), mk conn1 (wbuf c) true)
  | None =>
      let '(bb, err, conn2) := io_ReadFull conn1 2 in
      match err with
      | Some e => ((0, Some e, b), mk conn2 (wbuf c) true)
      | None =>
          let dlen := Z.to_nat (Uint16 bb) in
          if dlen <=? length b then
            let '(d, err, conn3) := io_ReadFull conn2 dlen in
            ((length d, err, fst (copy b d)), mk conn3 (wbuf c) true)
          else
            let buf := bufpool_Get dlen in
            let '(d, err, conn3) := io_ReadFull conn2 (length buf) in
            let buf1 := fst (copy buf d) in
            let '(b1, n) := copy b buf1 in
            ((n, err, b1), mk conn3 (wbuf c) true)
      end
  end.

Definition Write (c : t) (b : list byte) : (nat * option error) * t :=
  if (Z.of_nat (length b) >? MaxUint16)%Z then
    ((0, Some (errorString "write: data maximum exceeded")), c)
  else
    let n := length b in
    let bb := PutUint16 (uint16 (Z.of_nat (length b))) in
    let direct :=
      let '(_, err, conn1) := conn_Write (Conn c) bb in
      match err with
      | Some e => ((n, Some e), mk conn1 (wbuf c) (once c))
      | None =>
          let '(m, err, conn2) := conn_Write conn1 b in
          ((m, err), mk conn2 (wbuf c) (once c))
      end in
    match wbuf c with
    | Some w =>
        if 0 <? length w then
          let w1 := Buffer_Write (Buffer_Write w bb) b in
          let '(err, w2, conn1) := Buffer_WriteTo w1 (Conn c) in
          ((n, err), mk conn1 (Some w2) (once c))
        else direct
    | None => direct
    end.
End Defs.
Arguments t T : clear implicits.
End udpConn.

(** ** bindConn *)

Module bindConn.
Section Defs.
Context {T : Type} `{Transport T} {Metadata : Type}.

Record t : Type := mk {
  Conn : T;
  localAddr : Addr;
  remoteAddr : Addr;
  md : Metadata
}.

Definition LocalAddr (c : t) : Addr := localAddr c.
Definition RemoteAddr (c : t) : Addr := remoteAddr c.
Definition Metadata_ (c : t) : Metadata := md c.

(** [Read] and [Write] are promoted from the embedded [net.Conn]. *)
Definition Read (c : t) (b : list byte) : (nat * option error * list byte) * t :=
  let '(d, e, conn1) := conn_Read (Conn c) (length b) in
  ((length d, e, fst (copy b d)), mk conn1 (localAddr c) (remoteAddr c) (md c)).

Definition Write (c : t) (b : list byte) : (nat * option error) * t :=
  let '(n, e, conn1) := conn_Write (Conn c) b in
  ((n, e), mk conn1 (localAddr c) (remoteAddr c) (md c)).
End Defs.
Arguments t T Metadata : clear implicits.
End bindConn.

(** ** bindUDPConn *)

Module bindUDPConn.
Section Defs.
Context {T : Type} `{Transport T} `{BufPool} {Metadata : Type}.

Record t : Type := mk {
  Conn : T;
  localAddr : Addr;
  remoteAddr : Addr;
  md : Metadata
}.

Definition with_Conn (c : t) (conn1 : T) : t :=
  mk conn1 (localAddr c) (remoteAddr c) (md c).

Definition Read (c : t) (b : list byte) : (nat * option error * list byte) * t :=
  let '(bh, err, conn1) := io_ReadFull (Conn c) 2 in
  match err with
  | Some e => ((0, Some e, b), with_Conn c conn1)
  | None =>
      let dlen := Z.to_nat (Uint16 bh) in
      if dlen <=? length b then
        let '(d, err, conn2) := io_ReadFull conn1 dlen in
        ((length d, err, fst (copy b d)), with_Conn c conn2)
      else
        let buf := bufpool_Get dlen in
        let '(d, err, conn2) := io_ReadFull conn1 (length buf) in
        let buf1 := fst (copy buf d) in
        let '(b1, n) := copy b buf1 in
        ((n, err, b1), with_Conn c conn2)
  end.

Definition Write (c : t) (b : list byte) : (nat * option error) * t :=
  if (Z.of_nat (length b) >? MaxUint16)%Z then
    ((0, Some (errorString "write: data maximum exceeded")), c)
  else
    let buf := bufpool_Get (length b + 2) in
    let buf1 :=
      fst (copy (firstn 2 buf) (PutUint16 (uint16 (Z.of_nat (length b)))))
      ++ skipn 2 buf in
    let '(tl, n) := copy (skipn 2 buf1) b in
    let buf2 := firstn 2 buf1 ++ tl in
    let '(m, err, conn1) := conn_Write (Conn c) buf2 in
    ((m, err), with_Conn c conn1).

Definition ReadFrom (c : t) (b : list byte)
  : (nat * Addr * option error * list byte) * t :=
  let addr := remoteAddr c in
  let '((n, err, b1), c1) := Read c b in
  ((n, addr, err, b1), c1).

Definition WriteTo (c : t) (b : list byte) (addr : Addr)
  : (nat * option error) * t :=
  Write c b.

Definition LocalAddr (c : t) : Addr := localAddr c.
Definition RemoteAddr (c : t) : Addr := remoteAddr c.
Definition Metadata_ (c : t) : Metadata := md c.
End Defs.
Arguments t T Metadata : clear implicits.
End bindUDPConn.

(** ** An in-memory transport

    [Pipe] is a transport whose whole behaviour is data: the bytes the peer
    has sent and that are still unread ([rx]), every buffer handed to its
    write method ([calls], oldest first), the bytes it accepted ([wire]) and
    a script for the outcomes of the coming writes ([plan]: [None] accepts
    the whole buffer, [Some (k, e)] accepts at most [k] bytes and fails with
    [e]; an exhausted script accepts everything).  [handshakes] counts the
    calls of [Response.ReadFrom] made on it. *)

Record Pipe : Type := mkPipe {
  rx : list byte;
  calls : list (list byte);
  wire : list byte;
  plan : list (option (nat * error));
  handshakes : nat;
  laddr : Addr;
  raddr : Addr
}.

Definition Pipe_Read (p : Pipe) (n : nat) : list byte * option error * Pipe :=
  if n =? 0 then ([], None, p)
  else match rx p with
       | [] => ([], Some EOF, p)
       | _ =>
           (firstn n (rx p), None,
            mkPipe (skipn n (rx p)) (calls p) (wire p) (plan p) (handshakes p)
                   (laddr p) (raddr p))
       end.

(** [io.ReadFull]: all [n] bytes, or what there is with [io.ErrUnexpectedEOF],
    or [io.EOF] when there is nothing at all. *)
Definition Pipe_ReadFull (p : Pipe) (n : nat) : list byte * option error * Pipe :=
  if n =? 0 then ([], None, p)
  else if n <=? length (rx p) then
    (firstn n (rx p), None,
     mkPipe (skipn n (rx p)) (calls p) (wire p) (plan p) (handshakes p)
            (laddr p) (raddr p))
  else match rx p with
       | [] => ([], Some EOF, p)
       | _ =>
           (rx p, Some ErrUnexpectedEOF,
            mkPipe [] (calls p) (wire p) (plan p) (handshakes p)
                   (laddr p) (raddr p))
       end.

(** Modelled from the spec: [relay.Response.ReadFrom] belongs to the imported
    package github.com/go-gost/relay; the spec gives the record on the wire
    as [[1 byte: version][1 byte: status]], read as a whole. *)
Definition Pipe_ReadFrom (p : Pipe) : Response * option error * Pipe :=
  let '(d, e, p1) := Pipe_ReadFull p 2 in
  let p2 := mkPipe (rx p1) (calls p1) (wire p1) (plan p1) (S (handshakes p1))
                   (laddr p1) (raddr p1) in
  match e with
  | Some e => (Build_Response x00 x00, Some e, p2)
  | None => (Build_Response (nth 0 d x00) (nth 1 d x00), None, p2)
  end.

Definition Pipe_Write (p : Pipe) (b : list byte) : nat * option error * Pipe :=
  match plan p with
  | Some (k, e) :: rest =>
      (Nat.min k (length b), Some e,
       mkPipe (rx p) (calls p ++ [b]) (wire p ++ firstn k b) rest (handshakes p)
              (laddr p) (raddr p))
  | None :: rest =>
      (length b, None,
       mkPipe (rx p) (calls p ++ [b]) (wire p ++ b) rest (handshakes p)
              (laddr p) (raddr p))
  | [] =>
      (length b, None,
       mkPipe (rx p) (calls p ++ [b]) (wire p ++ b) [] (handshakes p)
              (laddr p) (raddr p))
  end.

Lemma Pipe_Read_le (p : Pipe) (n : nat) :
  length (fst (fst (Pipe_Read p n))) <= n.
Proof.
  unfold Pipe_Read. destruct (Nat.eqb_spec n 0) as [->|Hn]; simpl; [lia|].
  destruct (rx p) as [|x l] eqn:E; simpl fst; [simpl; lia|].
  rewrite length_firstn. lia.
Qed.

Lemma Pipe_Write_le (p : Pipe) (b : list byte) :
  fst (fst (Pipe_Write p b)) <= length b.
Proof.
  unfold Pipe_Write. destruct (plan p) as [|[[k e]|] rest]; simpl; lia.
Qed.

Lemma Pipe_Write_short (p : Pipe) (b : list byte) :
  fst (fst (Pipe_Write p b)) < length b -> snd (fst (Pipe_Write p b)) <> None.
Proof.
  unfold Pipe_Write. destruct (plan p) as [|[[k e]|] rest]; simpl;
    intros Hlt; try lia; discriminate.
Qed.

Lemma Pipe_ReadFull_le (p : Pipe) (n : nat) :
  length (fst (fst (Pipe_ReadFull p n))) <= n.
Proof.
  unfold Pipe_ReadFull. destruct (Nat.eqb_spec n 0) as [->|Hn]; simpl; [lia|].
  destruct (Nat.leb_spec n (length (rx p))) as [Hle|Hgt]; simpl fst.
  - rewrite length_firstn. lia.
  - destruct (rx p) as [|x l] eqn:E; simpl fst; simpl in *; lia.
Qed.

Lemma Pipe_ReadFull_full (p : Pipe) (n : nat) :
  snd (fst (Pipe_ReadFull p n)) = None <-> length (fst (fst (Pipe_ReadFull p n))) = n.
Proof.
  unfold Pipe_ReadFull. destruct (Nat.eqb_spec n 0) as [->|Hn]; simpl; [tauto|].
  destruct (Nat.leb_spec n (length (rx p))) as [Hle|Hgt]; simpl fst; simpl snd.
  - rewrite length_firstn. split; intros; [lia|reflexivity].
  - destruct (rx p) as [|x l] eqn:E; simpl fst; simpl snd; simpl in *;
      split; intros Hx; try discriminate; lia.
Qed.

#[export] Instance Pipe_Transport : Transport Pipe := {|
  conn_Read := Pipe_Read;
  conn_Write := Pipe_Write;
  conn_LocalAddr := laddr;
  conn_RemoteAddr := raddr;
  io_ReadFull := Pipe_ReadFull;
  Response_ReadFrom := Pipe_ReadFrom;
  conn_Read_le := Pipe_Read_le;
  conn_Write_le := Pipe_Write_le;
  conn_Write_short := Pipe_Write_short;
  io_ReadFull_le := Pipe_ReadFull_le;
  io_ReadFull_full := Pipe_ReadFull_full
|}.

(** Modelled from the spec: the constants of the imported package; the spec
    fixes status [0] as OK and uses ["forbidden"] as the text of status 5 in
    its scenario.  The version constant is the protocol's version 1. *)
Definition relay_StatusText (s : byte) : string :=
  if Byte.eqb s x05 then "forbidden" else "unknown".

#[export] Instance relay_Protocol : Protocol := {|
  Version1 := x01;
  StatusOK := x00;
  StatusText := relay_StatusText
|}.

(** A pool whose buffers come back dirty. *)
#[export] Instance dirty_BufPool : BufPool := {|
  bufpool_Get := fun n => repeat xff n;
  bufpool_Get_length := fun n => repeat_length xff n
|}.

(** ** Facts about the codec and [copy] *)

Lemma Z_of_byte_of_Z (z : Z) : Z_of_byte (byte_of_Z z) = (z mod 256)%Z.
Proof.
  unfold Z_of_byte, byte_of_Z.
  assert (Hr : (0 <= z mod 256 < 256)%Z) by (apply Z.mod_pos_bound; lia).
  destruct (Byte.of_N (Z.to_N (z mod 256))) as [b|] eqn:E.
  - apply Byte.to_of_N in E. rewrite E. apply Z2N.id. lia.
  - apply Byte.of_N_None_iff in E. lia.
Qed.

Lemma PutUint16_length (v : Z) : length (PutUint16 v) = 2.
Proof. reflexivity. Qed.

Lemma lor_shiftl_8 (lo hi : Z) :
  (0 <= lo < 256)%Z -> (0 <= hi)%Z -> Z.lor lo (Z.shiftl hi 8) = (lo + 256 * hi)%Z.
Proof.
  intros Hlo Hhi.
  rewrite Z.shiftl_mul_pow2 by lia. change (2 ^ 8)%Z with 256%Z.
  rewrite <- Z.lxor_lor.
  - rewrite <- Z.add_nocarry_lxor; [lia|].
    apply Z.bits_inj'. intros n Hn. rewrite Z.land_spec, Z.bits_0.
    destruct (Z.ltb_spec n 8) as [Hlt|Hge].
    + replace (hi * 256)%Z with (hi * 2 ^ 8)%Z by reflexivity.
      rewrite (Z.mul_pow2_bits_low hi 8 n) by lia. apply andb_false_r.
    + rewrite (Z.bits_above_log2 lo n); [reflexivity|lia|].
      destruct (Z.eq_dec lo 0) as [->|Hnz]; [simpl; lia|].
      apply Z.log2_lt_pow2; [lia|].
      apply Z.lt_le_trans with (2 ^ 8)%Z; [simpl; lia|].
      apply Z.pow_le_mono_r; lia.
  - apply Z.bits_inj'. intros n Hn. rewrite Z.land_spec, Z.bits_0.
    destruct (Z.ltb_spec n 8) as [Hlt|Hge].
    + replace (hi * 256)%Z with (hi * 2 ^ 8)%Z by reflexivity.
      rewrite (Z.mul_pow2_bits_low hi 8 n) by lia. apply andb_false_r.
    + rewrite (Z.bits_above_log2 lo n); [reflexivity|lia|].
      destruct (Z.eq_dec lo 0) as [->|Hnz]; [simpl; lia|].
      apply Z.log2_lt_pow2; [lia|].
      apply Z.lt_le_trans with (2 ^ 8)%Z; [simpl; lia|].
      apply Z.pow_le_mono_r; lia.
Qed.

(** Decoding the two bytes that [PutUint16] produced gives the value back. *)
Lemma Uint16_PutUint16 (v : Z) :
  (0 <= v < 65536)%Z -> Uint16 (PutUint16 v) = v.
Proof.
  intros Hv. unfold Uint16, PutUint16. cbn [nth].
  rewrite !Z_of_byte_of_Z.
  rewrite Z.shiftr_div_pow2 by lia. change (2 ^ 8)%Z with 256%Z.
  rewrite lor_shiftl_8.
  - rewrite (Z.mod_small (v / 256) 256).
    + pose proof (Z.div_mod v 256). lia.
    + split; [apply Z.div_pos; lia|apply Z.div_lt_upper_bound; lia].
  - apply Z.mod_pos_bound; lia.
  - apply Z.mod_pos_bound; lia.
Qed.

Lemma uint16_small (n : Z) : (0 <= n <= MaxUint16)%Z -> uint16 n = n.
Proof. unfold uint16, MaxUint16. intros Hn. apply Z.mod_small. lia. Qed.

(** What a frame header decodes to for a payload that fits. *)
Lemma frame_length_roundtrip (p : list byte) :
  (Z.of_nat (length p) <= MaxUint16)%Z ->
  Z.to_nat (Uint16 (PutUint16 (uint16 (Z.of_nat (length p))))) = length p.
Proof.
  intros Hp. rewrite uint16_small by lia.
  rewrite Uint16_PutUint16 by (unfold MaxUint16 in Hp; lia).
  apply Nat2Z.id.
Qed.

(** Copying into a buffer that has room overwrites its start. *)
Lemma copy_fits (dst src : list byte) :
  length src <= length dst ->
  copy dst src = (src ++ skipn (length src) dst, length src).
Proof.
  intros Hle. unfold copy. rewrite Nat.min_r by assumption.
  rewrite firstn_all. reflexivity.
Qed.

(** Copying into a buffer that is too small fills it and drops the rest. *)
Lemma copy_truncates (dst src : list byte) :
  length dst <= length src ->
  copy dst src = (firstn (length dst) src, length dst).
Proof.
  intros Hle. unfold copy. rewrite Nat.min_l by assumption.
  rewrite skipn_all. rewrite app_nil_r. reflexivity.
Qed.

(** ** Sequences of calls on one connection

    A caller issues reads and writes one after the other; the connection
    after a whole sequence is the fold of the single calls. *)

Section Runs.
Context {T : Type} `{Transport T} `{Protocol} `{BufPool}.

Definition tcp_Reads (c : tcpConn.t T) (bs : list (list byte)) : tcpConn.t T :=
  fold_left (fun c b => snd (tcpConn.Read c b)) bs c.

Definition tcp_Writes (c : tcpConn.t T) (bs : list (list byte)) : tcpConn.t T :=
  fold_left (fun c b => snd (tcpConn.Write c b)) bs c.

Definition udp_Reads (c : udpConn.t T) (bs : list (list byte)) : udpConn.t T :=
  fold_left (fun c b => snd (udpConn.Read c b)) bs c.

Definition udp_Writes (c : udpConn.t T) (bs : list (list byte)) : udpConn.t T :=
  fold_left (fun c b => snd (udpConn.Write c b)) bs c.

(** The transport after handing it the buffers [bs] one by one. *)
Definition conn_Writes (t : T) (bs : list (list byte)) : T :=
  fold_left (fun t b => snd (conn_Write t b)) bs t.
End Runs.

(** The error of a write above the frame ceiling. *)
Definition MessageTooLarge : error := errorString "write: data maximum exceeded".

(** A pipe with [input] waiting to be read and nothing written so far. *)
Definition pipe (input : list byte) (script : list (option (nat * error))) : Pipe :=
  mkPipe input [] [] script 0 "10.0.0.1:40000" "10.0.0.2:8421".

(** The handshake bytes a datagram connection still expects before its
    first frame: a response record when the check is pending, nothing
    otherwise. *)
Definition awaited_response {T : Type} `{Protocol} (c : udpConn.t T) : list byte :=
  if udpConn.once c then []
  else match udpConn.wbuf c with
       | Some _ => [Version1; StatusOK]
       | None => []
       end.

(** One frame on the wire. *)
Definition frame (p : list byte) : list byte :=
  PutUint16 (uint16 (Z.of_nat (length p))) ++ p.

(** A buffer handed to the transport is part of the frame of one of the
    payloads [bs]: its length prefix or the payload itself. *)
Definition frame_part (bs : list (list byte)) (x : list byte) : Prop :=
  exists b, In b bs /\ (x = PutUint16 (uint16 (Z.of_nat (length b))) \/ x = b).

(** The first-read sentence of the specification, read literally: the first
    read of a connection runs the response check once, pending header or
    not. *)
Definition first_Read_checks (c : tcpConn.t Pipe) (b : list byte) : Prop :=
  tcpConn.once c = false ->
  handshakes (tcpConn.Conn (snd (tcpConn.Read c b)))
  = S (handshakes (tcpConn.Conn c)).

(** The coalescing sentence of the specification, read literally on the
    datagram connection: after the first write with a header pending, the
    pending header is empty. *)
Definition header_spent_after_Write (c : udpConn.t Pipe) (P : list byte) : Prop :=
  forall Hd, udpConn.wbuf c = Some Hd -> Hd <> [] ->
  udpConn.wbuf (snd (udpConn.Write c P)) = Some [].

(** The written-count sentence of the specification, read literally on the
    bound datagram connection. *)
Definition bound_Write_counts_payload (c : bindUDPConn.t Pipe unit) (p : list byte) : Prop :=
  (Z.of_nat (length p) <= MaxUint16)%Z ->
  snd (fst (bindUDPConn.Write c p)) = None ->
  fst (fst (bindUDPConn.Write c p)) = length p.

(** * Properties *)

(** ** readResponse *)

Lemma byte_eqb_refl (a : byte) : Byte.eqb a a = true.
Proof. apply Byte.byte_dec_lb. reflexivity. Qed.

Lemma byte_eqb_neq (a b : byte) : a <> b -> Byte.eqb a b = false.
Proof.
  intros Hne. destruct (Byte.eqb a b) eqn:E; [|reflexivity].
  apply Byte.byte_dec_bl in E. contradiction.
Qed.

Section ReadResponseFacts.
Context {T : Type} `{Transport T} `{Protocol}.

Lemma readResponse_ok (r r1 : T) (resp : Response) :
  Response_ReadFrom r = (resp, None, r1) ->
  Version resp = Version1 -> Status resp = StatusOK ->
  readResponse r = (None, r1).
Proof.
  intros E Hv Hs. unfold readResponse. rewrite E, Hv, Hs.
  rewrite !byte_eqb_refl. reflexivity.
Qed.

(** The transport after [readResponse] is the transport after the one
    [ReadFrom] it makes, whatever the verdict. *)
Lemma readResponse_conn (r : T) :
  snd (readResponse r) = snd (Response_ReadFrom r).
Proof.
  unfold readResponse. destruct (Response_ReadFrom r) as [[resp [e|]] r1]; cbn.
  - reflexivity.
  - destruct (negb (Byte.eqb (Version resp) Version1)); [reflexivity|].
    destruct (negb (Byte.eqb (Status resp) StatusOK)); reflexivity.
Qed.
End ReadResponseFacts.

(** C7: once the two-byte record has been read, [readResponse] fails with
    [ErrBadVersion] when the version is not the supported one, whatever the
    status; with the supported version and a status that is not OK it fails
    with an error that renders as the decimal code, a space and the status
    text; with the supported version and status OK it returns no error. *)
Theorem readResponse_verdict :
  forall (T : Type) (HT : Transport T) (HP : Protocol) (r r1 : T) (resp : Response),
    Response_ReadFrom r = (resp, None, r1) ->
    (Version resp <> Version1 -> readResponse r = (Some ErrBadVersion, r1))
    /\ (Version resp = Version1 -> Status resp <> StatusOK ->
        exists e, readResponse r = (Some e, r1)
                  /\ Error e = (itoa (Status resp) ++ " " ++ StatusText (Status resp))%string)
    /\ (Version resp = Version1 -> Status resp = StatusOK ->
        readResponse r = (None, r1)).
Proof.
  intros T HT HP r r1 resp E. repeat split.
  - intros Hv. unfold readResponse. rewrite E.
    rewrite (byte_eqb_neq Hv). reflexivity.
  - intros Hv Hs. eexists. split.
    + unfold readResponse. rewrite E, Hv, byte_eqb_refl.
      rewrite (byte_eqb_neq Hs). reflexivity.
    + reflexivity.
  - intros Hv Hs. apply readResponse_ok with resp; assumption.
Qed.

(** The scenario of the specification: version 1, status 5, text
    ["forbidden"]. *)
Lemma readResponse_verdict_witness :
  exists e, readResponse (pipe [x01; x05] []) = (Some e, mkPipe [] [] [] [] 1 "10.0.0.1:40000" "10.0.0.2:8421")
            /\ Error e = "5 forbidden".
Proof.
  refine (proj1 (proj2 (@readResponse_verdict Pipe _ _ (pipe [x01; x05] []) _
                          (Build_Response x01 x05) eq_refl)) eq_refl _).
  discriminate.
Defined.

(** ** tcpConn.Write *)

Section TcpWriteFacts.
Context {T : Type} `{Transport T}.

Lemma nonempty_pending (w : list byte) : w <> [] -> (0 <? length w) = true.
Proof. destruct w; [congruence|reflexivity]. Qed.

(** With a header pending the call makes one transport write, of header
    and payload together, and leaves an empty buffer behind. *)
Lemma tcp_Write_coalesced (c : tcpConn.t T) (w b : list byte) :
  tcpConn.wbuf c = Some w -> w <> [] ->
  tcpConn.Write c b
  = ((length b, snd (fst (conn_Write (tcpConn.Conn c) (w ++ b)))),
     tcpConn.mk (snd (conn_Write (tcpConn.Conn c) (w ++ b))) (Some [])
                (tcpConn.once c)).
Proof.
  intros Hw Hne. unfold tcpConn.Write. rewrite Hw, (nonempty_pending Hne).
  unfold Buffer_Write.
  destruct (conn_Write (tcpConn.Conn c) (w ++ b)) as [[m e] t1]. reflexivity.
Qed.

(** With no header pending the call makes one transport write of the
    payload alone. *)
Lemma tcp_Write_direct (c : tcpConn.t T) (b : list byte) :
  tcpConn.wbuf c = None \/ tcpConn.wbuf c = Some [] ->
  tcpConn.Write c b
  = ((length b, snd (fst (conn_Write (tcpConn.Conn c) b))),
     tcpConn.mk (snd (conn_Write (tcpConn.Conn c) b)) (tcpConn.wbuf c)
                (tcpConn.once c)).
Proof.
  intros [Hw|Hw]; unfold tcpConn.Write; rewrite Hw; cbn;
    destruct (conn_Write (tcpConn.Conn c) b) as [[m e] t1]; reflexivity.
Qed.

(** Once the buffer is empty it stays empty, and a run of writes hands the
    transport the payloads as they are. *)
Lemma tcp_Writes_direct (bs : list (list byte)) :
  forall c : tcpConn.t T,
    tcpConn.wbuf c = Some [] ->
    tcpConn.wbuf (tcp_Writes c bs) = Some []
    /\ tcpConn.Conn (tcp_Writes c bs) = conn_Writes (tcpConn.Conn c) bs.
Proof.
  induction bs as [|b bs IH]; intros c Hw.
  - split; [exact Hw|reflexivity].
  - unfold tcp_Writes, conn_Writes. cbn [fold_left].
    rewrite (tcp_Write_direct c b (or_intror Hw)). cbn [snd].
    apply IH. cbn. exact Hw.
Qed.
End TcpWriteFacts.

(** C8: on the stream connection [Write] returns the length of its argument as
    the count, whatever the transport write reported, and returns the error of
    that transport write as it is. *)
Theorem tcpConn_Write_reports_input_length :
  forall (T : Type) (HT : Transport T) (c : tcpConn.t T) (b : list byte),
    fst (fst (tcpConn.Write c b)) = length b
    /\ exists out : list byte,
        (out = b \/ exists w, tcpConn.wbuf c = Some w /\ out = w ++ b)
        /\ snd (fst (tcpConn.Write c b)) = snd (fst (conn_Write (tcpConn.Conn c) out))
        /\ tcpConn.Conn (snd (tcpConn.Write c b)) = snd (conn_Write (tcpConn.Conn c) out).
Proof.
  intros T HT c b.
  destruct (tcpConn.wbuf c) as [[|x w]|] eqn:Hw.
  - rewrite (tcp_Write_direct c b (or_intror Hw)). cbn.
    split; [reflexivity|]. exists b. repeat split. left. reflexivity.
  - assert (Hne : x :: w <> []) by discriminate.
    rewrite (tcp_Write_coalesced c b Hw Hne). cbn [fst snd tcpConn.Conn].
    split; [reflexivity|]. exists ((x :: w) ++ b). repeat split.
    right. exists (x :: w). split; reflexivity.
  - rewrite (tcp_Write_direct c b (or_introl Hw)). cbn.
    split; [reflexivity|]. exists b. repeat split. left. reflexivity.
Qed.

(** A transport that takes one byte of three and then fails: the count is
    still three and the error is the transport's. *)
Example tcpConn_Write_partial :
  fst (tcpConn.Write
         (tcpConn.mk (pipe [] [Some (1, netError "connection reset")]) None false)
         [x01; x02; x03])
  = (3, Some (netError "connection reset")).
Proof. reflexivity. Qed.

(** C10: on the stream connection the coalesced write empties the pending
    header whatever the transport write returned, an error included; from
    then on the buffer stays empty and every later write hands the transport
    its own payload and nothing else, so header bytes the transport did not
    take are never offered again. *)
Theorem tcpConn_header_emptied_on_any_outcome :
  forall (T : Type) (HT : Transport T) (c : tcpConn.t T) (w b : list byte),
    tcpConn.wbuf c = Some w -> w <> [] ->
    tcpConn.wbuf (snd (tcpConn.Write c b)) = Some []
    /\ forall bs : list (list byte),
        tcpConn.wbuf (tcp_Writes (snd (tcpConn.Write c b)) bs) = Some []
        /\ tcpConn.Conn (tcp_Writes (snd (tcpConn.Write c b)) bs)
           = conn_Writes (snd (conn_Write (tcpConn.Conn c) (w ++ b))) bs.
Proof.
  intros T HT c w b Hw Hne.
  rewrite (tcp_Write_coalesced c b Hw Hne). cbn [snd].
  split; [reflexivity|]. intros bs.
  apply (tcp_Writes_direct bs (tcpConn.mk _ (Some []) (tcpConn.once c))).
  reflexivity.
Qed.

(** The coalesced write fails after the first byte of the header [AA BB];
    the buffer is empty all the same, [BB] never reaches the wire and the
    later writes carry their payloads only. *)
Lemma tcpConn_header_emptied_on_any_outcome_witness :
  let c := tcpConn.mk (pipe [] [Some (1, netError "broken pipe")])
                      (Some [xaa; xbb]) false in
  snd (fst (tcpConn.Write c [x01])) = Some (netError "broken pipe")
  /\ tcpConn.wbuf (snd (tcpConn.Write c [x01])) = Some []
  /\ calls (tcpConn.Conn (tcp_Writes (snd (tcpConn.Write c [x01])) [[x02]; [x03]]))
     = [[xaa; xbb; x01]; [x02]; [x03]]
  /\ wire (tcpConn.Conn (tcp_Writes (snd (tcpConn.Write c [x01])) [[x02]; [x03]]))
     = [xaa; x02; x03].
Proof.
  intros c.
  assert (Hne : [xaa; xbb] <> []) by discriminate.
  pose proof (@tcpConn_header_emptied_on_any_outcome Pipe _ c [xaa; xbb] [x01]
                eq_refl Hne) as [Hbuf Hlater].
  destruct (Hlater [[x02]; [x03]]) as [_ Hconn].
  split; [reflexivity|]. split; [exact Hbuf|].
  rewrite Hconn. split; reflexivity.
Defined.

(** ** The write ceiling *)

(** C4: a payload longer than 65535 bytes is refused by [Write] on the
    datagram connection and on the bound datagram connection with the
    too-large error and count zero; the connection is returned as it was, so
    the transport saw no write and the pending header is unchanged. *)
Theorem oversize_Write_rejected :
  forall (T : Type) (HT : Transport T) (HB : BufPool) (M : Type)
         (c : udpConn.t T) (k : bindUDPConn.t T M) (p : list byte),
    (Z.of_nat (length p) > MaxUint16)%Z ->
    udpConn.Write c p = ((0, Some MessageTooLarge), c)
    /\ bindUDPConn.Write k p = ((0, Some MessageTooLarge), k).
Proof.
  intros T HT HB M c k p Hlen.
  assert (Hgt : (Z.of_nat (length p) >? MaxUint16)%Z = true)
    by (apply Z.gtb_lt; lia).
  unfold udpConn.Write, bindUDPConn.Write. rewrite Hgt. split; reflexivity.
Qed.

Definition oversize_payload : list byte := repeat x00 (N.to_nat 65536).

Lemma oversize_Write_rejected_witness :
  let c := udpConn.mk (pipe [] []) (Some [xaa]) false in
  let k := bindUDPConn.mk (pipe [] []) "tunnel:1" "tunnel:2" tt in
  udpConn.Write c oversize_payload = ((0, Some MessageTooLarge), c)
  /\ bindUDPConn.Write k oversize_payload = ((0, Some MessageTooLarge), k).
Proof.
  intros c k.
  apply (@oversize_Write_rejected Pipe _ _ unit c k oversize_payload).
  vm_compute. reflexivity.
Defined.

(** ** Addresses of the bound connections *)

Section BoundFacts.
Context {T : Type} `{Transport T} `{BufPool} {M : Type}.

Lemma bindUDPConn_Read_addrs (c : bindUDPConn.t T M) (b : list byte) :
  bindUDPConn.localAddr (snd (bindUDPConn.Read c b)) = bindUDPConn.localAddr c
  /\ bindUDPConn.remoteAddr (snd (bindUDPConn.Read c b)) = bindUDPConn.remoteAddr c.
Proof.
  unfold bindUDPConn.Read.
  destruct (io_ReadFull (bindUDPConn.Conn c) 2) as [[bh [e|]] t1]; cbn;
    [split; reflexivity|].
  destruct (Z.to_nat (Uint16 bh) <=? length b).
  - destruct (io_ReadFull t1 (Z.to_nat (Uint16 bh))) as [[d e] t2].
    split; reflexivity.
  - cbv zeta. destruct (io_ReadFull t1 _) as [[d e] t2].
    destruct (copy b _) as [b1 n]. split; reflexivity.
Qed.

Lemma bindUDPConn_Write_addrs (c : bindUDPConn.t T M) (b : list byte) :
  bindUDPConn.localAddr (snd (bindUDPConn.Write c b)) = bindUDPConn.localAddr c
  /\ bindUDPConn.remoteAddr (snd (bindUDPConn.Write c b)) = bindUDPConn.remoteAddr c.
Proof.
  unfold bindUDPConn.Write.
  destruct (Z.of_nat (length b) >? MaxUint16)%Z; [split; reflexivity|].
  cbv zeta. destruct (copy _ b) as [tl n].
  destruct (conn_Write (bindUDPConn.Conn c) _) as [[m e] t1].
  split; reflexivity.
Qed.

Lemma bindConn_Read_addrs (c : bindConn.t T M) (b : list byte) :
  bindConn.localAddr (snd (bindConn.Read c b)) = bindConn.localAddr c
  /\ bindConn.remoteAddr (snd (bindConn.Read c b)) = bindConn.remoteAddr c.
Proof.
  unfold bindConn.Read.
  destruct (conn_Read (bindConn.Conn c) (length b)) as [[d e] t1].
  split; reflexivity.
Qed.

Lemma bindConn_Write_addrs (c : bindConn.t T M) (b : list byte) :
  bindConn.localAddr (snd (bindConn.Write c b)) = bindConn.localAddr c
  /\ bindConn.remoteAddr (snd (bindConn.Write c b)) = bindConn.remoteAddr c.
Proof.
  unfold bindConn.Write.
  destruct (conn_Write (bindConn.Conn c) b) as [[n e] t1].
  split; reflexivity.
Qed.
End BoundFacts.

(** The native addresses of the transport differ from the wrapped ones and
    are not what the accessors report. *)
Example bound_addresses_not_native :
  let k := bindUDPConn.mk (pipe [] []) "198.51.100.7:0" "203.0.113.9:53" tt in
  conn_LocalAddr (bindUDPConn.Conn k) = "10.0.0.1:40000"
  /\ bindUDPConn.LocalAddr k = "198.51.100.7:0"
  /\ bindUDPConn.RemoteAddr k = "203.0.113.9:53".
Proof. repeat split. Qed.

(** ** The in-memory transport at work *)

Definition set_rx (q : Pipe) (l : list byte) : Pipe :=
  mkPipe l (calls q) (wire q) (plan q) (handshakes q) (laddr q) (raddr q).

(** No write of the script fails. *)
Definition healthy (q : Pipe) : Prop := Forall (fun o => o = None) (plan q).

(** How many response checks a connection still owes: one when the
    [sync.Once] has not fired and a header buffer is present. *)
Definition checks_due (once : bool) (wbuf : option Buffer) : nat :=
  if once then 0 else match wbuf with Some _ => 1 | None => 0 end.

Lemma set_rx_same (q : Pipe) : set_rx q (rx q) = q.
Proof. destruct q. reflexivity. Qed.

Lemma Pipe_Read_handshakes (q : Pipe) (n : nat) :
  handshakes (snd (Pipe_Read q n)) = handshakes q.
Proof.
  unfold Pipe_Read. destruct (n =? 0); [reflexivity|].
  destruct (rx q); reflexivity.
Qed.

Lemma Pipe_ReadFull_handshakes (q : Pipe) (n : nat) :
  handshakes (snd (Pipe_ReadFull q n)) = handshakes q.
Proof.
  unfold Pipe_ReadFull. destruct (n =? 0); [reflexivity|].
  destruct (n <=? length (rx q)); [reflexivity|].
  destruct (rx q); reflexivity.
Qed.

Lemma Pipe_ReadFrom_handshakes (q : Pipe) :
  handshakes (snd (Pipe_ReadFrom q)) = S (handshakes q).
Proof.
  unfold Pipe_ReadFrom. pose proof (Pipe_ReadFull_handshakes q 2) as Hh.
  destruct (Pipe_ReadFull q 2) as [[d [e|]] q1]; cbn in *; congruence.
Qed.

Lemma readResponse_handshakes `{Protocol} (q : Pipe) :
  handshakes (snd (readResponse q)) = S (handshakes q).
Proof. rewrite readResponse_conn. apply Pipe_ReadFrom_handshakes. Qed.

(** Reading a prefix of what is waiting: [io.ReadFull] returns exactly it. *)
Lemma Pipe_ReadFull_prefix (q : Pipe) (d rest : list byte) :
  rx q = d ++ rest ->
  Pipe_ReadFull q (length d) = (d, None, set_rx q rest).
Proof.
  intros Hrx. unfold Pipe_ReadFull.
  destruct (Nat.eqb_spec (length d) 0) as [Hz|Hnz].
  - destruct d; [|discriminate]. cbn in Hrx. rewrite <- Hrx, set_rx_same.
    reflexivity.
  - assert (Hle : (length d <=? length (rx q)) = true).
    { apply Nat.leb_le. rewrite Hrx, length_app. lia. }
    rewrite Hle, Hrx.
    rewrite firstn_app, Nat.sub_diag, firstn_all, firstn_O, app_nil_r.
    rewrite skipn_app, Nat.sub_diag, skipn_all, skipn_O. reflexivity.
Qed.

(** The response check on a pipe that holds a good response. *)
Lemma readResponse_good `{Protocol} (q : Pipe) (rest : list byte) :
  rx q = [Version1; StatusOK] ++ rest ->
  fst (readResponse q) = None /\ rx (snd (readResponse q)) = rest.
Proof.
  intros Hrx.
  assert (E : Response_ReadFrom q
              = (Build_Response Version1 StatusOK, None,
                 mkPipe rest (calls q) (wire q) (plan q) (S (handshakes q))
                        (laddr q) (raddr q))).
  { cbn [Response_ReadFrom Pipe_Transport]. unfold Pipe_ReadFrom.
    change 2 with (length [Version1; StatusOK]).
    rewrite (Pipe_ReadFull_prefix q [Version1; StatusOK] rest Hrx).
    reflexivity. }
  rewrite (readResponse_ok q E eq_refl eq_refl). split; reflexivity.
Qed.

Lemma Pipe_Write_calls (q : Pipe) (b : list byte) :
  calls (snd (Pipe_Write q b)) = calls q ++ [b].
Proof.
  unfold Pipe_Write. destruct (plan q) as [|[[k e]|] rest]; reflexivity.
Qed.

Lemma Pipe_Write_healthy (q : Pipe) (b : list byte) :
  healthy q ->
  fst (Pipe_Write q b) = (length b, None)
  /\ wire (snd (Pipe_Write q b)) = wire q ++ b
  /\ healthy (snd (Pipe_Write q b)).
Proof.
  unfold healthy, Pipe_Write. intros Hq.
  destruct (plan q) as [|o rest].
  - repeat split. cbn. constructor.
  - inversion Hq as [|o' rest' Ho Hrest]; subst.
    repeat split. exact Hrest.
Qed.

(** ** The deferred response check *)

Section FirstRead.
Context `{Protocol} `{BufPool}.

Lemma tcp_Read_once (c : tcpConn.t Pipe) (b : list byte) :
  tcpConn.once (snd (tcpConn.Read c b)) = true
  /\ tcpConn.wbuf (snd (tcpConn.Read c b)) = tcpConn.wbuf c.
Proof.
  unfold tcpConn.Read.
  destruct (if tcpConn.once c then _ else _) as [[e|] q1]; cbn;
    [split; reflexivity|].
  destruct (Pipe_Read q1 (length b)) as [[d e] q2]. split; reflexivity.
Qed.

Lemma tcp_Read_handshakes (c : tcpConn.t Pipe) (b : list byte) :
  handshakes (tcpConn.Conn (snd (tcpConn.Read c b)))
  = handshakes (tcpConn.Conn c) + checks_due (tcpConn.once c) (tcpConn.wbuf c).
Proof.
  unfold tcpConn.Read, checks_due.
  assert (Hpre : forall q, handshakes
             (tcpConn.Conn (snd
               (let '(d, e, conn2) := conn_Read q (length b) in
                (length d, e, fst (copy b d), tcpConn.mk conn2 (tcpConn.wbuf c) true))))
             = handshakes q).
  { intros q. pose proof (Pipe_Read_handshakes q (length b)) as Hh.
    cbn [conn_Read Pipe_Transport].
    destruct (Pipe_Read q (length b)) as [[d e] q2]. exact Hh. }
  destruct (tcpConn.once c).
  - rewrite Hpre. lia.
  - destruct (tcpConn.wbuf c) as [w|].
    + pose proof (readResponse_handshakes (tcpConn.Conn c)) as Hh.
      destruct (readResponse (tcpConn.Conn c)) as [[e|] q1]; cbn in Hh.
      * cbn. lia.
      * rewrite Hpre. lia.
    + rewrite Hpre. lia.
Qed.

Lemma tcp_Reads_done (bs : list (list byte)) :
  forall c : tcpConn.t Pipe,
    tcpConn.once c = true ->
    handshakes (tcpConn.Conn (tcp_Reads c bs)) = handshakes (tcpConn.Conn c).
Proof.
  induction bs as [|b bs IH]; intros c Hc; [reflexivity|].
  unfold tcp_Reads. cbn [fold_left].
  change (handshakes (tcpConn.Conn (tcp_Reads (snd (tcpConn.Read c b)) bs))
          = handshakes (tcpConn.Conn c)).
  rewrite IH by apply tcp_Read_once.
  rewrite tcp_Read_handshakes, Hc. cbn. lia.
Qed.
End FirstRead.

(** ** The datagram read, in two steps

    [udpConn.Read] is the deferred check followed by the framed read that
    [bindUDPConn.Read] makes; the facts about framing are proved once, on the
    bound connection, and carried over. *)

Definition deferred_check {T : Type} `{Transport T} `{Protocol}
    (once : bool) (wbuf : option Buffer) (conn : T) : option error * T :=
  if once then (None, conn)
  else match wbuf with
       | Some _ => readResponse conn
       | None => (None, conn)
       end.

Section ReadSplit.
Context {T : Type} `{Transport T} `{Protocol} `{BufPool}.

Lemma udp_Read_split (c : udpConn.t T) (b : list byte) :
  udpConn.Read c b
  = let '(err, conn1) := deferred_check (udpConn.once c) (udpConn.wbuf c) (udpConn.Conn c) in
    match err with
    | Some e => ((0, Some e, b), udpConn.mk conn1 (udpConn.wbuf c) true)
    | None =>
        let '(res, k) := bindUDPConn.Read (bindUDPConn.mk conn1 "" "" tt) b in
        (res, udpConn.mk (bindUDPConn.Conn k) (udpConn.wbuf c) true)
    end.
Proof.
  unfold udpConn.Read, deferred_check, bindUDPConn.Read, bindUDPConn.with_Conn.
  destruct (if udpConn.once c then _ else _) as [[e|] conn1]; [reflexivity|].
  cbn [bindUDPConn.Conn bindUDPConn.localAddr bindUDPConn.remoteAddr bindUDPConn.md].
  destruct (io_ReadFull conn1 2) as [[bb [e|]] conn2]; [reflexivity|].
  destruct (Z.to_nat (Uint16 bb) <=? length b).
  - destruct (io_ReadFull conn2 _) as [[d e] conn3]. reflexivity.
  - cbv zeta. destruct (io_ReadFull conn2 _) as [[d e] conn3].
    destruct (copy b _) as [b1 n]. reflexivity.
Qed.

Lemma udp_Read_once (c : udpConn.t T) (b : list byte) :
  udpConn.once (snd (udpConn.Read c b)) = true
  /\ udpConn.wbuf (snd (udpConn.Read c b)) = udpConn.wbuf c.
Proof.
  rewrite udp_Read_split.
  destruct (deferred_check _ _ _) as [[e|] conn1]; [split; reflexivity|].
  destruct (bindUDPConn.Read _ b) as [res k]. split; reflexivity.
Qed.
End ReadSplit.

Section FramedReadOnPipe.
Context `{Protocol} `{BufPool} {M : Type}.

Lemma deferred_check_handshakes (o : bool) (w : option Buffer) (q : Pipe) :
  handshakes (snd (deferred_check o w q)) = handshakes q + checks_due o w.
Proof.
  unfold deferred_check, checks_due. destruct o; [cbn; lia|].
  destruct w; [|cbn; lia]. rewrite readResponse_handshakes. lia.
Qed.

Lemma bindUDP_Read_handshakes (k : bindUDPConn.t Pipe M) (b : list byte) :
  handshakes (bindUDPConn.Conn (snd (bindUDPConn.Read k b)))
  = handshakes (bindUDPConn.Conn k).
Proof.
  unfold bindUDPConn.Read. cbn [io_ReadFull Pipe_Transport].
  pose proof (Pipe_ReadFull_handshakes (bindUDPConn.Conn k) 2) as H2.
  destruct (Pipe_ReadFull (bindUDPConn.Conn k) 2) as [[bh [e|]] q1]; cbn in H2;
    [exact H2|].
  destruct (Z.to_nat (Uint16 bh) <=? length b).
  - pose proof (Pipe_ReadFull_handshakes q1 (Z.to_nat (Uint16 bh))) as H3.
    destruct (Pipe_ReadFull q1 _) as [[d e] q2]. cbn in *. congruence.
  - cbv zeta.
    pose proof (Pipe_ReadFull_handshakes q1
                  (length (bufpool_Get (Z.to_nat (Uint16 bh))))) as H3.
    destruct (Pipe_ReadFull q1 _) as [[d e] q2].
    destruct (copy b _) as [b1 n]. cbn in *. congruence.
Qed.

End FramedReadOnPipe.

Section DatagramFirstRead.
Context `{Protocol} `{BufPool}.

Lemma udp_Read_handshakes (c : udpConn.t Pipe) (b : list byte) :
  handshakes (udpConn.Conn (snd (udpConn.Read c b)))
  = handshakes (udpConn.Conn c) + checks_due (udpConn.once c) (udpConn.wbuf c).
Proof.
  rewrite udp_Read_split.
  pose proof (deferred_check_handshakes (udpConn.once c) (udpConn.wbuf c)
                (udpConn.Conn c)) as Hd.
  destruct (deferred_check _ _ _) as [[e|] q1]; cbn [snd] in Hd; [exact Hd|].
  pose proof (bindUDP_Read_handshakes (bindUDPConn.mk q1 "" "" tt) b) as Hf.
  destruct (bindUDPConn.Read _ b) as [res k]. cbn in *. congruence.
Qed.

Lemma udp_Reads_done (bs : list (list byte)) :
  forall c : udpConn.t Pipe,
    udpConn.once c = true ->
    handshakes (udpConn.Conn (udp_Reads c bs)) = handshakes (udpConn.Conn c).
Proof.
  induction bs as [|b bs IH]; intros c Hc; [reflexivity|].
  unfold udp_Reads. cbn [fold_left].
  change (handshakes (udpConn.Conn (udp_Reads (snd (udpConn.Read c b)) bs))
          = handshakes (udpConn.Conn c)).
  rewrite IH by apply udp_Read_once.
  rewrite udp_Read_handshakes, Hc. cbn. lia.
Qed.
End DatagramFirstRead.

(** C1, as the code has it: on the stream and on the datagram relay
    connection the first [Read] runs the response check once when the
    connection was given a header buffer (empty or not) and the [sync.Once]
    has not fired; a connection without a header buffer never runs it; and no
    later [Read] runs it, whatever the first check returned. *)
Theorem response_check_runs_once_if_buffer_present :
  forall (HP : Protocol) (HB : BufPool) (c : tcpConn.t Pipe) (u : udpConn.t Pipe)
         (b : list byte) (bs : list (list byte)),
    handshakes (tcpConn.Conn (snd (tcpConn.Read c b)))
    = handshakes (tcpConn.Conn c) + checks_due (tcpConn.once c) (tcpConn.wbuf c)
    /\ handshakes (tcpConn.Conn (tcp_Reads c (b :: bs)))
       = handshakes (tcpConn.Conn c) + checks_due (tcpConn.once c) (tcpConn.wbuf c)
    /\ handshakes (udpConn.Conn (snd (udpConn.Read u b)))
       = handshakes (udpConn.Conn u) + checks_due (udpConn.once u) (udpConn.wbuf u)
    /\ handshakes (udpConn.Conn (udp_Reads u (b :: bs)))
       = handshakes (udpConn.Conn u) + checks_due (udpConn.once u) (udpConn.wbuf u).
Proof.
  intros HP HB c u b bs.
  split; [apply tcp_Read_handshakes|].
  split.
  { change (tcp_Reads c (b :: bs)) with (tcp_Reads (snd (tcpConn.Read c b)) bs).
    rewrite tcp_Reads_done by apply tcp_Read_once. apply tcp_Read_handshakes. }
  split; [apply udp_Read_handshakes|].
  change (udp_Reads u (b :: bs)) with (udp_Reads (snd (udpConn.Read u b)) bs).
  rewrite udp_Reads_done by apply udp_Read_once. apply udp_Read_handshakes.
Qed.

(** A stream connection without a header buffer, with a response of the
    wrong version waiting: the first read runs no check. *)
Lemma first_Read_without_buffer_skips_check :
  ~ first_Read_checks (tcpConn.mk (pipe [x09; x00; x41] []) None false)
                      [x00; x00; x00; x00].
Proof.
  unfold first_Read_checks. intros Hc. specialize (Hc eq_refl).
  vm_compute in Hc. discriminate Hc.
Qed.

(** The same read hands the three waiting bytes to the caller as data. *)
Example first_Read_without_buffer_delivers_response :
  fst (tcpConn.Read (tcpConn.mk (pipe [x09; x00; x41] []) None false)
                    [x00; x00; x00; x00])
  = (3, None, [x09; x00; x41; x00]).
Proof. reflexivity. Qed.

(** With an empty header buffer the check runs, once, and a failed check is
    not repeated by the second read. *)
Example first_Read_with_empty_buffer_checks :
  let c := tcpConn.mk (pipe [x09; x00; x41] []) (Some []) false in
  fst (tcpConn.Read c [x00; x00]) = (0, Some ErrBadVersion, [x00; x00])
  /\ fst (tcpConn.Read (snd (tcpConn.Read c [x00; x00])) [x00; x00])
     = (1, None, [x41; x00])
  /\ handshakes (tcpConn.Conn (tcp_Reads c [[x00; x00]; [x00; x00]; [x00; x00]])) = 1.
Proof. repeat split. Qed.

(** ** Framed reads on the in-memory transport *)

Section FramedRead.
Context `{BufPool} {M : Type}.

Lemma frame_app (f rest : list byte) :
  frame f ++ rest = PutUint16 (uint16 (Z.of_nat (length f))) ++ (f ++ rest).
Proof. unfold frame. rewrite <- app_assoc. reflexivity. Qed.

(** A whole frame is waiting and the caller's buffer has room for it. *)
Lemma bindUDP_Read_fits (k : bindUDPConn.t Pipe M) (f b rest : list byte) :
  rx (bindUDPConn.Conn k) = frame f ++ rest ->
  (Z.of_nat (length f) <= MaxUint16)%Z ->
  length f <= length b ->
  bindUDPConn.Read k b
  = ((length f, None, f ++ skipn (length f) b),
     bindUDPConn.with_Conn k (set_rx (bindUDPConn.Conn k) rest)).
Proof.
  intros Hrx Hmax Hfit. rewrite frame_app in Hrx.
  unfold bindUDPConn.Read. cbn [io_ReadFull Pipe_Transport].
  change 2 with (length (PutUint16 (uint16 (Z.of_nat (length f))))).
  rewrite (Pipe_ReadFull_prefix _ _ _ Hrx).
  rewrite (frame_length_roundtrip f Hmax).
  assert (Hle : (length f <=? length b) = true) by (apply Nat.leb_le; lia).
  rewrite Hle.
  rewrite (Pipe_ReadFull_prefix (set_rx (bindUDPConn.Conn k) (f ++ rest)) f rest eq_refl).
  rewrite (copy_fits b f Hfit). reflexivity.
Qed.

(** A whole frame is waiting and the caller's buffer is shorter than it. *)
Lemma bindUDP_Read_short (k : bindUDPConn.t Pipe M) (f b rest : list byte) :
  rx (bindUDPConn.Conn k) = frame f ++ rest ->
  (Z.of_nat (length f) <= MaxUint16)%Z ->
  length b < length f ->
  bindUDPConn.Read k b
  = ((length b, None, firstn (length b) f),
     bindUDPConn.with_Conn k (set_rx (bindUDPConn.Conn k) rest)).
Proof.
  intros Hrx Hmax Hshort. rewrite frame_app in Hrx.
  unfold bindUDPConn.Read. cbn [io_ReadFull Pipe_Transport].
  change 2 with (length (PutUint16 (uint16 (Z.of_nat (length f))))).
  rewrite (Pipe_ReadFull_prefix _ _ _ Hrx).
  rewrite (frame_length_roundtrip f Hmax).
  assert (Hle : (length f <=? length b) = false) by (apply Nat.leb_gt; lia).
  rewrite Hle. cbv zeta. rewrite bufpool_Get_length.
  rewrite (Pipe_ReadFull_prefix (set_rx (bindUDPConn.Conn k) (f ++ rest)) f rest eq_refl).
  rewrite (copy_fits (bufpool_Get (length f)) f)
    by (rewrite bufpool_Get_length; lia).
  cbn [fst]. rewrite skipn_all2 by (rewrite bufpool_Get_length; lia).
  rewrite app_nil_r.
  rewrite (copy_truncates b f) by lia. reflexivity.
Qed.
End FramedRead.

Section DatagramReadOnPipe.
Context `{Protocol} `{BufPool}.

Lemma deferred_check_awaited (c : udpConn.t Pipe) (rest : list byte) :
  rx (udpConn.Conn c) = awaited_response c ++ rest ->
  fst (deferred_check (udpConn.once c) (udpConn.wbuf c) (udpConn.Conn c)) = None
  /\ rx (snd (deferred_check (udpConn.once c) (udpConn.wbuf c) (udpConn.Conn c))) = rest.
Proof.
  unfold awaited_response, deferred_check.
  destruct (udpConn.once c); [intros Hrx; split; [reflexivity|exact Hrx]|].
  destruct (udpConn.wbuf c) as [w|]; [|intros Hrx; split; [reflexivity|exact Hrx]].
  apply readResponse_good.
Qed.

Lemma udp_Read_fits (c : udpConn.t Pipe) (f b rest : list byte) :
  rx (udpConn.Conn c) = awaited_response c ++ frame f ++ rest ->
  (Z.of_nat (length f) <= MaxUint16)%Z ->
  length f <= length b ->
  fst (udpConn.Read c b) = (length f, None, f ++ skipn (length f) b)
  /\ rx (udpConn.Conn (snd (udpConn.Read c b))) = rest.
Proof.
  intros Hrx Hmax Hfit. rewrite udp_Read_split.
  destruct (deferred_check_awaited c _ Hrx) as [He Hq].
  destruct (deferred_check _ _ _) as [err q1]. cbn [fst snd] in He, Hq. subst err.
  rewrite (@bindUDP_Read_fits _ unit (bindUDPConn.mk q1 "" "" tt) f b rest Hq Hmax Hfit).
  split; reflexivity.
Qed.

Lemma udp_Read_short (c : udpConn.t Pipe) (f b rest : list byte) :
  rx (udpConn.Conn c) = awaited_response c ++ frame f ++ rest ->
  (Z.of_nat (length f) <= MaxUint16)%Z ->
  length b < length f ->
  fst (udpConn.Read c b) = (length b, None, firstn (length b) f)
  /\ rx (udpConn.Conn (snd (udpConn.Read c b))) = rest.
Proof.
  intros Hrx Hmax Hshort. rewrite udp_Read_split.
  destruct (deferred_check_awaited c _ Hrx) as [He Hq].
  destruct (deferred_check _ _ _) as [err q1]. cbn [fst snd] in He, Hq. subst err.
  rewrite (@bindUDP_Read_short _ unit (bindUDPConn.mk q1 "" "" tt) f b rest Hq Hmax Hshort).
  split; reflexivity.
Qed.
End DatagramReadOnPipe.

(** C6: a framed [Read] into a buffer shorter than the waiting frame takes the
    whole frame off the transport, fills the buffer with the first
    [min (len b) L] bytes of the frame, returns that count with no error and
    leaves the transport at the byte after the frame, so the rest of the
    frame is gone; on the datagram relay connection and on the bound
    datagram connection alike. *)
Theorem short_buffer_Read_drops_remainder :
  forall (HP : Protocol) (HB : BufPool) (M : Type)
         (u : udpConn.t Pipe) (k : bindUDPConn.t Pipe M) (f b rest : list byte),
    (Z.of_nat (length f) <= MaxUint16)%Z ->
    length b < length f ->
    rx (udpConn.Conn u) = awaited_response u ++ frame f ++ rest ->
    rx (bindUDPConn.Conn k) = frame f ++ rest ->
    let n := Nat.min (length b) (length f) in
    (fst (udpConn.Read u b) = (n, None, firstn n f)
     /\ rx (udpConn.Conn (snd (udpConn.Read u b))) = rest
     /\ udpConn.wbuf (snd (udpConn.Read u b)) = udpConn.wbuf u)
    /\ (fst (bindUDPConn.Read k b) = (n, None, firstn n f)
        /\ rx (bindUDPConn.Conn (snd (bindUDPConn.Read k b))) = rest).
Proof.
  intros HP HB M u k f b rest Hmax Hshort Hu Hk n.
  assert (Hn : n = length b) by (unfold n; lia). rewrite Hn.
  split.
  - destruct (@udp_Read_short _ _ u f b rest Hu Hmax Hshort) as [H1 H2].
    split; [exact H1|]. split; [exact H2|]. apply udp_Read_once.
  - rewrite (@bindUDP_Read_short _ M k f b rest Hk Hmax Hshort). split; reflexivity.
Qed.

(** A five-byte frame followed by the start of the next one, read into two
    bytes: three bytes are dropped and the next read starts at the next
    frame. *)
Lemma short_buffer_Read_drops_remainder_witness :
  let f := [x61; x62; x63; x64; x65] in
  let rest := [x00; x01; x7a] in
  let u := udpConn.mk (pipe ([x01; x00] ++ frame f ++ rest) []) (Some []) false in
  let k := bindUDPConn.mk (pipe (frame f ++ rest) []) "tunnel:1" "tunnel:2" tt in
  (fst (udpConn.Read u [x00; x00]) = (2, None, [x61; x62])
   /\ rx (udpConn.Conn (snd (udpConn.Read u [x00; x00]))) = rest
   /\ udpConn.wbuf (snd (udpConn.Read u [x00; x00])) = Some [])
  /\ (fst (bindUDPConn.Read k [x00; x00]) = (2, None, [x61; x62])
      /\ rx (bindUDPConn.Conn (snd (bindUDPConn.Read k [x00; x00]))) = rest).
Proof.
  intros f rest u k.
  apply (@short_buffer_Read_drops_remainder relay_Protocol dirty_BufPool unit
           u k f [x00; x00] rest).
  - vm_compute. discriminate.
  - vm_compute. lia.
  - reflexivity.
  - reflexivity.
Defined.

(** ** udpConn.Write *)

Section UdpWriteFacts.
Context {T : Type} `{Transport T}.

Lemma fits_not_oversize (b : list byte) :
  (Z.of_nat (length b) <= MaxUint16)%Z ->
  (Z.of_nat (length b) >? MaxUint16)%Z = false.
Proof. intros Hb. rewrite Z.gtb_ltb. apply Z.ltb_ge. exact Hb. Qed.

(** With no header pending: the length prefix, then the payload, in two
    transport writes; an error of the first stops the call. *)
Lemma udp_Write_direct (c : udpConn.t T) (b : list byte) :
  (Z.of_nat (length b) <= MaxUint16)%Z ->
  udpConn.wbuf c = None \/ udpConn.wbuf c = Some [] ->
  udpConn.Write c b
  = let '(_, err, conn1) :=
      conn_Write (udpConn.Conn c) (PutUint16 (uint16 (Z.of_nat (length b)))) in
    match err with
    | Some e => ((length b, Some e), udpConn.mk conn1 (udpConn.wbuf c) (udpConn.once c))
    | None =>
        let '(m, err, conn2) := conn_Write conn1 b in
        ((m, err), udpConn.mk conn2 (udpConn.wbuf c) (udpConn.once c))
    end.
Proof.
  intros Hb Hw. unfold udpConn.Write. rewrite (fits_not_oversize b Hb).
  destruct Hw as [Hw|Hw]; rewrite Hw; reflexivity.
Qed.

(** With a header pending: one [WriteTo] of header, prefix and payload. *)
Lemma udp_Write_coalesced (c : udpConn.t T) (w b : list byte) :
  (Z.of_nat (length b) <= MaxUint16)%Z ->
  udpConn.wbuf c = Some w -> w <> [] ->
  udpConn.Write c b
  = let '(err, w2, conn1) := Buffer_WriteTo (w ++ frame b) (udpConn.Conn c) in
    ((length b, err), udpConn.mk conn1 (Some w2) (udpConn.once c)).
Proof.
  intros Hb Hw Hne. unfold udpConn.Write.
  rewrite (fits_not_oversize b Hb), Hw, (nonempty_pending Hne).
  unfold Buffer_Write, frame. rewrite <- app_assoc. reflexivity.
Qed.

(** A successful write reports the payload length: the count of the
    second transport write is the payload length by the writer's
    contract. *)
Lemma udp_Write_count (c : udpConn.t T) (b : list byte) :
  (Z.of_nat (length b) <= MaxUint16)%Z ->
  snd (fst (udpConn.Write c b)) = None ->
  fst (fst (udpConn.Write c b)) = length b.
Proof.
  intros Hb. unfold udpConn.Write. rewrite (fits_not_oversize b Hb).
  assert (Hdirect :
    snd (fst (let '(_, err, conn1) :=
                conn_Write (udpConn.Conn c) (PutUint16 (uint16 (Z.of_nat (length b)))) in
              match err with
              | Some e => ((length b, Some e), udpConn.mk conn1 (udpConn.wbuf c) (udpConn.once c))
              | None =>
                  let '(m, err0, conn2) := conn_Write conn1 b in
                  ((m, err0), udpConn.mk conn2 (udpConn.wbuf c) (udpConn.once c))
              end)) = None ->
    fst (fst (let '(_, err, conn1) :=
                conn_Write (udpConn.Conn c) (PutUint16 (uint16 (Z.of_nat (length b)))) in
              match err with
              | Some e => ((length b, Some e), udpConn.mk conn1 (udpConn.wbuf c) (udpConn.once c))
              | None =>
                  let '(m, err0, conn2) := conn_Write conn1 b in
                  ((m, err0), udpConn.mk conn2 (udpConn.wbuf c) (udpConn.once c))
              end)) = length b).
  { destruct (conn_Write (udpConn.Conn c) _) as [[m0 [e0|]] conn1];
      [intros; reflexivity|].
    pose proof (conn_Write_le conn1 b) as Hle.
    pose proof (conn_Write_short conn1 b) as Hshort.
    destruct (conn_Write conn1 b) as [[m e] conn2]. cbn in *.
    intros He. subst e.
    destruct (Nat.eq_dec m (length b)) as [Heq|Hneq]; [exact Heq|].
    exfalso. apply Hshort; [lia|reflexivity]. }
  cbv zeta.
  destruct (udpConn.wbuf c) as [w|]; [|exact Hdirect].
  destruct (0 <? length w); [|exact Hdirect].
  destruct (Buffer_WriteTo _ _) as [[err w2] conn1]. reflexivity.
Qed.
End UdpWriteFacts.

Section DatagramWriteOnPipe.

Lemma udp_Write_healthy (c : udpConn.t Pipe) (p : list byte) :
  (Z.of_nat (length p) <= MaxUint16)%Z ->
  udpConn.wbuf c = None \/ udpConn.wbuf c = Some [] ->
  healthy (udpConn.Conn c) ->
  fst (udpConn.Write c p) = (length p, None)
  /\ wire (udpConn.Conn (snd (udpConn.Write c p))) = wire (udpConn.Conn c) ++ frame p
  /\ calls (udpConn.Conn (snd (udpConn.Write c p)))
     = calls (udpConn.Conn c) ++ [PutUint16 (uint16 (Z.of_nat (length p))); p].
Proof.
  intros Hp Hw Hq. rewrite (udp_Write_direct c p Hp Hw).
  cbn [conn_Write Pipe_Transport].
  destruct (Pipe_Write_healthy (PutUint16 (uint16 (Z.of_nat (length p)))) Hq)
    as (H1 & H2 & H3).
  pose proof (Pipe_Write_calls (udpConn.Conn c)
                (PutUint16 (uint16 (Z.of_nat (length p))))) as H4.
  destruct (Pipe_Write (udpConn.Conn c) _) as [[m0 e0] q1].
  cbn [fst snd] in H1, H2, H3, H4. injection H1 as Hm0 He0. subst e0.
  destruct (Pipe_Write_healthy p H3) as (H5 & H6 & H7).
  pose proof (Pipe_Write_calls q1 p) as H8.
  destruct (Pipe_Write q1 p) as [[m e] q2].
  cbn [fst snd udpConn.Conn] in *. injection H5 as Hm He. subst m e.
  split; [reflexivity|]. split.
  - rewrite H6, H2. unfold frame. rewrite <- app_assoc. reflexivity.
  - rewrite H8, H4. rewrite <- app_assoc. reflexivity.
Qed.
End DatagramWriteOnPipe.

(** The bytes a call put on the wire: what the wire holds afterwards beyond
    what it held before. *)
Definition put_on_wire (before after : Pipe) : list byte :=
  skipn (length (wire before)) (wire after).

(** C3: a payload of at most 65535 bytes written on a datagram connection
    with no pending header, over a transport that takes its writes, puts the
    two-byte big-endian length followed by the payload on the wire; a framed
    read of those bytes into a buffer at least as long as the payload returns
    the payload length and the payload at the start of the buffer. *)
Theorem datagram_roundtrip :
  forall (HP : Protocol) (HB : BufPool) (c r : udpConn.t Pipe) (p b rest : list byte),
    (Z.of_nat (length p) <= MaxUint16)%Z ->
    udpConn.wbuf c = None \/ udpConn.wbuf c = Some [] ->
    healthy (udpConn.Conn c) ->
    rx (udpConn.Conn r)
    = awaited_response r
      ++ put_on_wire (udpConn.Conn c) (udpConn.Conn (snd (udpConn.Write c p))) ++ rest ->
    length p <= length b ->
    fst (udpConn.Write c p) = (length p, None)
    /\ put_on_wire (udpConn.Conn c) (udpConn.Conn (snd (udpConn.Write c p)))
       = PutUint16 (Z.of_nat (length p)) ++ p
    /\ fst (udpConn.Read r b) = (length p, None, p ++ skipn (length p) b)
    /\ firstn (length p) (snd (fst (udpConn.Read r b))) = p
    /\ rx (udpConn.Conn (snd (udpConn.Read r b))) = rest.
Proof.
  intros HP HB c r p b rest Hp Hw Hq Hrx Hfit.
  destruct (@udp_Write_healthy c p Hp Hw Hq) as (H1 & H2 & _).
  assert (Hput : put_on_wire (udpConn.Conn c) (udpConn.Conn (snd (udpConn.Write c p)))
                 = frame p).
  { unfold put_on_wire. rewrite H2.
    rewrite skipn_app, Nat.sub_diag, skipn_all, skipn_O. reflexivity. }
  rewrite Hput in Hrx |- *.
  destruct (@udp_Read_fits HP HB r p b rest Hrx Hp Hfit) as [H3 H4].
  split; [exact H1|]. split.
  { unfold frame. rewrite uint16_small; [reflexivity|lia]. }
  split; [exact H3|]. split; [|exact H4].
  rewrite H3. cbn [fst snd].
  rewrite firstn_app, Nat.sub_diag, firstn_all, firstn_O, app_nil_r. reflexivity.
Qed.

(** The scenario of the specification: [01 02 03] goes out as
    [00 03 01 02 03] and comes back into a ten-byte buffer. *)
Lemma datagram_roundtrip_witness :
  let c := udpConn.mk (pipe [] []) None false in
  let r := udpConn.mk (pipe [x00; x03; x01; x02; x03] []) None false in
  let b := repeat x00 10 in
  fst (udpConn.Write c [x01; x02; x03]) = (3, None)
  /\ put_on_wire (udpConn.Conn c) (udpConn.Conn (snd (udpConn.Write c [x01; x02; x03])))
     = [x00; x03; x01; x02; x03]
  /\ fst (udpConn.Read r b)
     = (3, None, [x01; x02; x03; x00; x00; x00; x00; x00; x00; x00])
  /\ firstn 3 (snd (fst (udpConn.Read r b))) = [x01; x02; x03]
  /\ rx (udpConn.Conn (snd (udpConn.Read r b))) = [].
Proof.
  intros c r b.
  apply (@datagram_roundtrip relay_Protocol dirty_BufPool c r [x01; x02; x03] b []).
  - vm_compute. discriminate.
  - left. reflexivity.
  - constructor.
  - reflexivity.
  - vm_compute. lia.
Defined.

(** ** bindUDPConn.Write *)

Section BoundWriteFacts.
Context {T : Type} `{Transport T} `{BufPool} {M : Type}.

(** The scratch buffer ends up holding the frame, whatever the pool handed
    out, and goes to the transport in one write whose count and error are
    the results of the call. *)
Lemma bindUDP_Write_frame (k : bindUDPConn.t T M) (b : list byte) :
  (Z.of_nat (length b) <= MaxUint16)%Z ->
  bindUDPConn.Write k b
  = let '(m, err, conn1) := conn_Write (bindUDPConn.Conn k) (frame b) in
    ((m, err), bindUDPConn.with_Conn k conn1).
Proof.
  intros Hb. unfold bindUDPConn.Write. rewrite (fits_not_oversize b Hb).
  cbv zeta.
  pose proof (bufpool_Get_length (length b + 2)) as Hlen.
  set (buf := bufpool_Get (length b + 2)) in *.
  set (hdr := PutUint16 (uint16 (Z.of_nat (length b)))).
  assert (H2 : length (firstn 2 buf) = 2) by (rewrite length_firstn; lia).
  assert (Hh : fst (copy (firstn 2 buf) hdr) = hdr).
  { rewrite copy_fits by (rewrite H2; cbn; lia).
    cbn [fst]. rewrite skipn_all2 by (rewrite H2; cbn; lia).
    apply app_nil_r. }
  rewrite Hh.
  assert (Hs : skipn 2 (hdr ++ skipn 2 buf) = skipn 2 buf) by reflexivity.
  assert (Hf : firstn 2 (hdr ++ skipn 2 buf) = hdr) by reflexivity.
  rewrite Hs, Hf.
  assert (Hl : length (skipn 2 buf) = length b) by (rewrite length_skipn; lia).
  rewrite (copy_fits (skipn 2 buf) b) by lia.
  rewrite skipn_all2 by lia. rewrite app_nil_r. reflexivity.
Qed.

(** A successful write reports the length of the frame, two more than the
    payload length. *)
Lemma bindUDP_Write_count (k : bindUDPConn.t T M) (b : list byte) :
  (Z.of_nat (length b) <= MaxUint16)%Z ->
  snd (fst (bindUDPConn.Write k b)) = None ->
  fst (fst (bindUDPConn.Write k b)) = length b + 2.
Proof.
  intros Hb. rewrite (bindUDP_Write_frame k b Hb).
  pose proof (conn_Write_le (bindUDPConn.Conn k) (frame b)) as Hle.
  pose proof (conn_Write_short (bindUDPConn.Conn k) (frame b)) as Hshort.
  destruct (conn_Write (bindUDPConn.Conn k) (frame b)) as [[m e] conn1].
  cbn in *. intros He. subst e.
  assert (Hfl : length (frame b) = length b + 2).
  { unfold frame. rewrite length_app. cbn. lia. }
  destruct (Nat.eq_dec m (length (frame b))) as [Heq|Hneq]; [lia|].
  exfalso. apply Hshort; [lia|reflexivity].
Qed.
End BoundWriteFacts.

(** C2, the bound datagram connection: a three-byte payload goes out as one
    five-byte frame and the call returns five, the count of the transport
    write, not three. *)
Theorem bindUDPConn_Write_returns_frame_length :
  let k := bindUDPConn.mk (pipe [] []) "tunnel:1" "tunnel:2" tt in
  fst (bindUDPConn.Write k [x01; x02; x03]) = (5, None)
  /\ calls (bindUDPConn.Conn (snd (bindUDPConn.Write k [x01; x02; x03])))
     = [[x00; x03; x01; x02; x03]].
Proof. split; reflexivity. Qed.

Lemma bound_Write_count_is_not_payload_length :
  ~ bound_Write_counts_payload
      (bindUDPConn.mk (pipe [] []) "tunnel:1" "tunnel:2" tt) [x01; x02; x03].
Proof.
  unfold bound_Write_counts_payload. intros Hc.
  assert (Hle : (Z.of_nat (length [x01; x02; x03]) <= MaxUint16)%Z)
    by (vm_compute; discriminate).
  specialize (Hc Hle eq_refl). vm_compute in Hc. discriminate Hc.
Qed.

(** The datagram relay connection does return the payload length. *)
Example udpConn_Write_returns_payload_length :
  fst (udpConn.Write (udpConn.mk (pipe [] []) None false) [x01; x02; x03])
  = (3, None).
Proof. reflexivity. Qed.

(** ** Write coalescing *)

Section WriteToFacts.
Context {T : Type} `{Transport T}.

(** [WriteTo] of a non-empty buffer is one transport write of the whole
    buffer. *)
Lemma Buffer_WriteTo_conn (w : Buffer) (t : T) :
  w <> [] -> snd (Buffer_WriteTo w t) = snd (conn_Write t w).
Proof.
  intros Hne. unfold Buffer_WriteTo. rewrite (nonempty_pending Hne).
  destruct (conn_Write t w) as [[m [e|]] t1]; [reflexivity|].
  destruct (negb (m =? length w)); reflexivity.
Qed.

(** When it reports no error the buffer is empty afterwards. *)
Lemma Buffer_WriteTo_success (w : Buffer) (t : T) :
  fst (fst (Buffer_WriteTo w t)) = None -> snd (fst (Buffer_WriteTo w t)) = [].
Proof.
  unfold Buffer_WriteTo. destruct (0 <? length w); [|reflexivity].
  destruct (conn_Write t w) as [[m [e|]] t1]; [discriminate|].
  destruct (negb (m =? length w)); [discriminate|reflexivity].
Qed.
End WriteToFacts.

Section CoalescingOnPipe.

Lemma conn_Writes_calls (bs : list (list byte)) :
  forall q : Pipe, calls (conn_Writes q bs) = calls q ++ bs.
Proof.
  induction bs as [|b bs IH]; intros q.
  - cbn. rewrite app_nil_r. reflexivity.
  - unfold conn_Writes. cbn [fold_left].
    change (calls (conn_Writes (snd (Pipe_Write q b)) bs) = calls q ++ b :: bs).
    rewrite IH, Pipe_Write_calls, <- app_assoc. reflexivity.
Qed.

Lemma frame_part_cons (b : list byte) (bs : list (list byte)) (x : list byte) :
  frame_part bs x -> frame_part (b :: bs) x.
Proof.
  intros (b0 & Hin & Hx). exists b0. split; [right; exact Hin|exact Hx].
Qed.

(** A datagram write with an empty buffer: the buffer stays empty and the
    transport is handed nothing but the prefix and the payload. *)
Lemma udp_Write_spent (u : udpConn.t Pipe) (b : list byte) (bs : list (list byte)) :
  udpConn.wbuf u = Some [] ->
  udpConn.wbuf (snd (udpConn.Write u b)) = Some []
  /\ exists l, calls (udpConn.Conn (snd (udpConn.Write u b)))
               = calls (udpConn.Conn u) ++ l
               /\ Forall (frame_part (b :: bs)) l.
Proof.
  intros Hw.
  destruct (Z.leb_spec (Z.of_nat (length b)) MaxUint16) as [Hb|Hb].
  - rewrite (udp_Write_direct u b Hb (or_intror Hw)).
    cbn [conn_Write Pipe_Transport].
    set (hdr := PutUint16 (uint16 (Z.of_nat (length b)))).
    pose proof (Pipe_Write_calls (udpConn.Conn u) hdr) as H1.
    assert (Fh : frame_part (b :: bs) hdr)
      by (exists b; split; [left; reflexivity|left; reflexivity]).
    assert (Fb : frame_part (b :: bs) b)
      by (exists b; split; [left; reflexivity|right; reflexivity]).
    destruct (Pipe_Write (udpConn.Conn u) hdr) as [[m0 [e0|]] q1]; cbn [snd] in H1.
    + cbn. split; [exact Hw|]. exists [hdr]. split; [exact H1|].
      constructor; [exact Fh|constructor].
    + pose proof (Pipe_Write_calls q1 b) as H2.
      destruct (Pipe_Write q1 b) as [[m e] q2]. cbn [snd] in H2.
      cbn. split; [exact Hw|]. exists [hdr; b]. split.
      * rewrite H2, H1, <- app_assoc. reflexivity.
      * constructor; [exact Fh|]. constructor; [exact Fb|constructor].
  - assert (Hgt : (Z.of_nat (length b) >? MaxUint16)%Z = true)
      by (apply Z.gtb_lt; lia).
    unfold udpConn.Write. rewrite Hgt. cbn [snd].
    split; [exact Hw|]. exists []. split; [rewrite app_nil_r; reflexivity|constructor].
Qed.

Lemma udp_Writes_spent (bs : list (list byte)) :
  forall u : udpConn.t Pipe,
    udpConn.wbuf u = Some [] ->
    udpConn.wbuf (udp_Writes u bs) = Some []
    /\ exists later, calls (udpConn.Conn (udp_Writes u bs))
                     = calls (udpConn.Conn u) ++ later
                     /\ Forall (frame_part bs) later.
Proof.
  induction bs as [|b bs IH]; intros u Hw.
  - split; [exact Hw|]. exists []. split; [cbn; rewrite app_nil_r; reflexivity|constructor].
  - destruct (udp_Write_spent u b bs Hw) as (Hw1 & l & Hl & Fl).
    destruct (IH (snd (udpConn.Write u b)) Hw1) as (Hw2 & later & Hlater & Flater).
    change (udp_Writes u (b :: bs)) with (udp_Writes (snd (udpConn.Write u b)) bs).
    split; [exact Hw2|]. exists (l ++ later). split.
    + rewrite Hlater, Hl, <- app_assoc. reflexivity.
    + apply Forall_app. split; [exact Fl|].
      apply Forall_impl with (P := frame_part bs); [|exact Flater].
      intros x. apply frame_part_cons.
Qed.
End CoalescingOnPipe.

(** C5, as the code has it.  With a non-empty header [Hd] pending, the first
    write of [P] hands the transport the one buffer [Hd ++ P] on the stream
    connection and, for [P] of at most 65535 bytes, the one buffer
    [Hd ++ len(P) ++ P] on the datagram connection.  On the stream connection
    the header buffer is empty after that write whatever its outcome; on the
    datagram connection it is empty after that write when the write reported
    no error.  From then on it stays empty and the later writes hand the
    transport their own payloads only (with their length prefixes on the
    datagram connection). *)
Theorem pending_header_coalesced_with_first_Write :
  forall (c : tcpConn.t Pipe) (u : udpConn.t Pipe) (Hd P : list byte)
         (bs : list (list byte)),
    Hd <> [] ->
    (tcpConn.wbuf c = Some Hd ->
     calls (tcpConn.Conn (snd (tcpConn.Write c P))) = calls (tcpConn.Conn c) ++ [Hd ++ P]
     /\ tcpConn.wbuf (tcp_Writes c (P :: bs)) = Some []
     /\ calls (tcpConn.Conn (tcp_Writes c (P :: bs)))
        = calls (tcpConn.Conn c) ++ (Hd ++ P) :: bs)
    /\ (udpConn.wbuf u = Some Hd -> (Z.of_nat (length P) <= MaxUint16)%Z ->
        calls (udpConn.Conn (snd (udpConn.Write u P)))
        = calls (udpConn.Conn u) ++ [Hd ++ PutUint16 (Z.of_nat (length P)) ++ P]
        /\ (snd (fst (udpConn.Write u P)) = None ->
            udpConn.wbuf (udp_Writes u (P :: bs)) = Some []
            /\ exists later,
                calls (udpConn.Conn (udp_Writes u (P :: bs)))
                = calls (udpConn.Conn u)
                  ++ (Hd ++ PutUint16 (Z.of_nat (length P)) ++ P) :: later
                /\ Forall (frame_part bs) later)).
Proof.
  intros c u Hd P bs Hne. split.
  - intros Hw.
    change (tcp_Writes c (P :: bs)) with (tcp_Writes (snd (tcpConn.Write c P)) bs).
    rewrite (tcp_Write_coalesced c P Hw Hne). cbn [snd].
    destruct (@tcp_Writes_direct Pipe _ bs
                (tcpConn.mk (snd (conn_Write (tcpConn.Conn c) (Hd ++ P))) (Some [])
                            (tcpConn.once c)) eq_refl) as [H1 H2].
    cbn [tcpConn.Conn] in *. cbn [conn_Write Pipe_Transport] in *.
    split; [apply Pipe_Write_calls|]. split; [exact H1|].
    rewrite H2, conn_Writes_calls, Pipe_Write_calls, <- app_assoc. reflexivity.
  - intros Hw HP.
    assert (Hfr : Hd ++ PutUint16 (Z.of_nat (length P)) ++ P = Hd ++ frame P).
    { unfold frame. rewrite uint16_small; [reflexivity|lia]. }
    rewrite Hfr.
    change (udp_Writes u (P :: bs)) with (udp_Writes (snd (udpConn.Write u P)) bs).
    rewrite (udp_Write_coalesced u P HP Hw Hne).
    assert (Hne2 : Hd ++ frame P <> []).
    { intros E. apply app_eq_nil in E. destruct E as [E _]. exact (Hne E). }
    pose proof (Buffer_WriteTo_conn (udpConn.Conn u) Hne2) as Hconn.
    pose proof (Buffer_WriteTo_success (Hd ++ frame P) (udpConn.Conn u)) as Hok.
    destruct (Buffer_WriteTo (Hd ++ frame P) (udpConn.Conn u)) as [[err w2] q1].
    cbn [fst snd udpConn.Conn] in *. subst q1.
    cbn [conn_Write Pipe_Transport]. rewrite Pipe_Write_calls.
    split; [reflexivity|]. intros He. rewrite (Hok He).
    destruct (udp_Writes_spent bs
                (udpConn.mk (snd (Pipe_Write (udpConn.Conn u) (Hd ++ frame P)))
                            (Some []) (udpConn.once u)) eq_refl)
      as (H1 & later & H2 & H3).
    split; [exact H1|]. exists later. split; [|exact H3].
    refine (eq_trans H2 _). cbn [udpConn.Conn]. rewrite Pipe_Write_calls, <- app_assoc.
    reflexivity.
Qed.

(** Header [AA BB], first payload [01], then [02], over a transport that
    takes every write. *)
Lemma pending_header_coalesced_with_first_Write_witness :
  let c := tcpConn.mk (pipe [] []) (Some [xaa; xbb]) false in
  let u := udpConn.mk (pipe [] []) (Some [xaa; xbb]) false in
  (calls (tcpConn.Conn (snd (tcpConn.Write c [x01]))) = [[xaa; xbb; x01]]
   /\ tcpConn.wbuf (tcp_Writes c [[x01]; [x02]]) = Some []
   /\ calls (tcpConn.Conn (tcp_Writes c [[x01]; [x02]])) = [[xaa; xbb; x01]; [x02]])
  /\ (calls (udpConn.Conn (snd (udpConn.Write u [x01]))) = [[xaa; xbb; x00; x01; x01]]
      /\ udpConn.wbuf (udp_Writes u [[x01]; [x02]]) = Some []
      /\ exists later,
          calls (udpConn.Conn (udp_Writes u [[x01]; [x02]]))
          = [xaa; xbb; x00; x01; x01] :: later
          /\ Forall (frame_part [[x02]]) later).
Proof.
  intros c u.
  assert (Hne : [xaa; xbb] <> []) by discriminate.
  assert (Hle : (Z.of_nat (length [x01]) <= MaxUint16)%Z) by (vm_compute; discriminate).
  destruct (@pending_header_coalesced_with_first_Write c u [xaa; xbb] [x01] [[x02]] Hne)
    as [Ht Hu].
  destruct (Ht eq_refl) as (T1 & T2 & T3).
  destruct (Hu eq_refl Hle) as (U1 & U2).
  destruct (U2 eq_refl) as (U3 & later & U4 & U5).
  split.
  - split; [exact T1|]. split; [exact T2|exact T3].
  - split; [exact U1|]. split; [exact U3|]. exists later. split; [exact U4|exact U5].
Defined.

(** On the datagram connection the header is still pending after a first
    write that the transport failed, and after a first write that was
    refused as too large. *)
Lemma header_survives_failed_datagram_Write :
  ~ header_spent_after_Write
      (udpConn.mk (pipe [] [Some (0, netError "broken pipe")]) (Some [xaa]) false)
      [x01]
  /\ ~ header_spent_after_Write
         (udpConn.mk (pipe [] []) (Some [xaa]) false) oversize_payload.
Proof.
  assert (Hne : [xaa] <> []) by discriminate.
  split; intros Hc; specialize (Hc [xaa] eq_refl Hne);
    vm_compute in Hc; discriminate Hc.
Qed.

(** After the failed write the buffer holds header, prefix and payload, and
    the next write hands all of it to the transport again, ahead of its own
    frame. *)
Example failed_datagram_Write_keeps_header :
  let u := udpConn.mk (pipe [] [Some (0, netError "broken pipe")]) (Some [xaa]) false in
  fst (udpConn.Write u [x01]) = (1, Some (netError "broken pipe"))
  /\ udpConn.wbuf (snd (udpConn.Write u [x01])) = Some [xaa; x00; x01; x01]
  /\ calls (udpConn.Conn (udp_Writes u [[x01]; [x02]]))
     = [[xaa; x00; x01; x01]; [xaa; x00; x01; x01; x00; x01; x02]].
Proof. repeat split. Qed.


(** ** The bound connections, end to end *)

(** C9: a bound connection and a bound datagram connection wrapped around any
    transport with the addresses [la] and [ra] report [la] and [ra], also
    after reads and writes, whatever the transport's own addresses are.
    [ReadFrom] makes the framed read and names [ra] as the sender: it returns
    what [Read] returns, and with a frame waiting on the transport it takes
    the whole frame off it and returns the payload, or the part of it the
    buffer holds.  [WriteTo] makes the framed write whatever the address
    argument: for a payload of at most 65535 bytes it hands the transport the
    one buffer made of the two-byte big-endian length and the payload and
    returns the count and error of that transport write; for a longer one it
    returns the too-large error and leaves the transport alone. *)
Theorem bound_addresses_fixed :
  forall (T : Type) (HT : Transport T) (HB : BufPool) (M : Type)
         (conn : T) (la ra : Addr) (md : M) (b : list byte) (a1 a2 : Addr)
         (q : Pipe) (f rest : list byte),
    let c := bindConn.mk conn la ra md in
    let k := bindUDPConn.mk conn la ra md in
    let kq := bindUDPConn.mk q la ra md in
    (bindConn.LocalAddr c = la /\ bindConn.RemoteAddr c = ra)
    /\ (bindConn.LocalAddr (snd (bindConn.Read c b)) = la
        /\ bindConn.RemoteAddr (snd (bindConn.Read c b)) = ra
        /\ bindConn.LocalAddr (snd (bindConn.Write c b)) = la
        /\ bindConn.RemoteAddr (snd (bindConn.Write c b)) = ra)
    /\ (bindUDPConn.LocalAddr k = la /\ bindUDPConn.RemoteAddr k = ra)
    /\ (bindUDPConn.LocalAddr (snd (bindUDPConn.Read k b)) = la
        /\ bindUDPConn.RemoteAddr (snd (bindUDPConn.Read k b)) = ra
        /\ bindUDPConn.LocalAddr (snd (bindUDPConn.Write k b)) = la
        /\ bindUDPConn.RemoteAddr (snd (bindUDPConn.Write k b)) = ra)
    /\ (snd (fst (fst (fst (bindUDPConn.ReadFrom k b)))) = ra
        /\ fst (fst (fst (fst (bindUDPConn.ReadFrom k b)))) = fst (fst (fst (bindUDPConn.Read k b)))
        /\ snd (fst (fst (bindUDPConn.ReadFrom k b))) = snd (fst (fst (bindUDPConn.Read k b)))
        /\ snd (fst (bindUDPConn.ReadFrom k b)) = snd (fst (bindUDPConn.Read k b))
        /\ snd (bindUDPConn.ReadFrom k b) = snd (bindUDPConn.Read k b))
    /\ (bindUDPConn.WriteTo k b a1 = bindUDPConn.WriteTo k b a2
        /\ bindUDPConn.WriteTo k b a1 = bindUDPConn.Write k b)
    /\ ((Z.of_nat (length b) <= MaxUint16)%Z ->
        bindUDPConn.WriteTo k b a1
        = let '(m, err, conn1) :=
            conn_Write conn (PutUint16 (Z.of_nat (length b)) ++ b) in
          ((m, err), bindUDPConn.mk conn1 la ra md))
    /\ ((Z.of_nat (length b) > MaxUint16)%Z ->
        bindUDPConn.WriteTo k b a1 = ((0, Some MessageTooLarge), k))
    /\ (rx q = PutUint16 (Z.of_nat (length f)) ++ f ++ rest ->
        (Z.of_nat (length f) <= MaxUint16)%Z ->
        (length f <= length b ->
         bindUDPConn.ReadFrom kq b
         = ((length f, ra, None, f ++ skipn (length f) b),
            bindUDPConn.mk (set_rx q rest) la ra md))
        /\ (length b < length f ->
            bindUDPConn.ReadFrom kq b
            = ((length b, ra, None, firstn (length b) f),
               bindUDPConn.mk (set_rx q rest) la ra md))).
Proof.
  intros T HT HB M conn la ra md b a1 a2 q f rest c k kq.
  split; [split; reflexivity|].
  split.
  { destruct (bindConn_Read_addrs c b) as [H1 H2].
    destruct (bindConn_Write_addrs c b) as [H3 H4].
    unfold bindConn.LocalAddr, bindConn.RemoteAddr.
    rewrite H1, H2, H3, H4. repeat split. }
  split; [split; reflexivity|].
  split.
  { destruct (bindUDPConn_Read_addrs k b) as [H1 H2].
    destruct (bindUDPConn_Write_addrs k b) as [H3 H4].
    unfold bindUDPConn.LocalAddr, bindUDPConn.RemoteAddr.
    rewrite H1, H2, H3, H4. repeat split. }
  split.
  { unfold bindUDPConn.ReadFrom.
    destruct (bindUDPConn.Read k b) as [[[n err] b1] k1]. repeat split. }
  split; [split; reflexivity|].
  split.
  { intros Hb. unfold bindUDPConn.WriteTo.
    rewrite (bindUDP_Write_frame k b Hb). unfold frame.
    rewrite uint16_small by lia. reflexivity. }
  split.
  { intros Hb. unfold bindUDPConn.WriteTo, bindUDPConn.Write.
    assert (Hgt : (Z.of_nat (length b) >? MaxUint16)%Z = true)
      by (apply Z.gtb_lt; lia).
    rewrite Hgt. reflexivity. }
  intros Hrx Hf.
  assert (Hrx' : rx (bindUDPConn.Conn kq) = frame f ++ rest).
  { unfold frame. rewrite uint16_small by lia. rewrite <- app_assoc. exact Hrx. }
  split.
  - intros Hfit. unfold bindUDPConn.ReadFrom.
    rewrite (@bindUDP_Read_fits HB M kq f b rest Hrx' Hf Hfit). reflexivity.
  - intros Hshort. unfold bindUDPConn.ReadFrom.
    rewrite (@bindUDP_Read_short HB M kq f b rest Hrx' Hf Hshort). reflexivity.
Qed.

(** A two-byte datagram sent to an address that is not the tunnel peer, and
    a three-byte datagram received into buffers of four bytes and of two. *)
Lemma bound_addresses_fixed_witness :
  let k := bindUDPConn.mk (pipe [x00; x03; x61; x62; x63; x7a] [])
                          "198.51.100.7:0" "203.0.113.9:53" tt in
  (fst (bindUDPConn.WriteTo k [x68; x69] "192.0.2.1:9") = (4, None)
   /\ calls (bindUDPConn.Conn (snd (bindUDPConn.WriteTo k [x68; x69] "192.0.2.1:9")))
      = [[x00; x02; x68; x69]])
  /\ (fst (bindUDPConn.ReadFrom k [xee; xee; xee; xee])
      = (3, "203.0.113.9:53", None, [x61; x62; x63; xee])
      /\ rx (bindUDPConn.Conn (snd (bindUDPConn.ReadFrom k [xee; xee; xee; xee]))) = [x7a])
  /\ (fst (bindUDPConn.ReadFrom k [xee; xee])
      = (2, "203.0.113.9:53", None, [x61; x62])
      /\ rx (bindUDPConn.Conn (snd (bindUDPConn.ReadFrom k [xee; xee]))) = [x7a]).
Proof.
  intros k.
  assert (Hw : (Z.of_nat (length [x68; x69]) <= MaxUint16)%Z) by (vm_compute; discriminate).
  assert (Hf : (Z.of_nat (length [x61; x62; x63]) <= MaxUint16)%Z) by (vm_compute; discriminate).
  assert (H4 : length [x61; x62; x63] <= length [xee; xee; xee; xee]) by (vm_compute; lia).
  assert (H2 : length [xee; xee] < length [x61; x62; x63]) by (vm_compute; lia).
  pose proof (@bound_addresses_fixed Pipe _ dirty_BufPool unit
                (pipe [x00; x03; x61; x62; x63; x7a] [])
                "198.51.100.7:0" "203.0.113.9:53" tt [x68; x69] "192.0.2.1:9" "192.0.2.2:9"
                (pipe [x00; x03; x61; x62; x63; x7a] []) [x61; x62; x63] [x7a])
    as (_ & _ & _ & _ & _ & _ & Wr & _ & _).
  pose proof (@bound_addresses_fixed Pipe _ dirty_BufPool unit
                (pipe [x00; x03; x61; x62; x63; x7a] [])
                "198.51.100.7:0" "203.0.113.9:53" tt [xee; xee; xee; xee]
                "192.0.2.1:9" "192.0.2.2:9"
                (pipe [x00; x03; x61; x62; x63; x7a] []) [x61; x62; x63] [x7a])
    as (_ & _ & _ & _ & _ & _ & _ & _ & Rd4).
  pose proof (@bound_addresses_fixed Pipe _ dirty_BufPool unit
                (pipe [x00; x03; x61; x62; x63; x7a] [])
                "198.51.100.7:0" "203.0.113.9:53" tt [xee; xee]
                "192.0.2.1:9" "192.0.2.2:9"
                (pipe [x00; x03; x61; x62; x63; x7a] []) [x61; x62; x63] [x7a])
    as (_ & _ & _ & _ & _ & _ & _ & _ & Rd2).
  split.
  - split; [exact (f_equal fst (Wr Hw))
           |exact (f_equal (fun r => calls (bindUDPConn.Conn (snd r))) (Wr Hw))].
  - split.
    + split; [exact (f_equal fst (proj1 (Rd4 eq_refl Hf) H4))
             |exact (f_equal (fun r => rx (bindUDPConn.Conn (snd r)))
                             (proj1 (Rd4 eq_refl Hf) H4))].
    + split; [exact (f_equal fst (proj2 (Rd2 eq_refl Hf) H2))
             |exact (f_equal (fun r => rx (bindUDPConn.Conn (snd r)))
                             (proj2 (Rd2 eq_refl Hf) H2))].
Defined.

(** * Further properties of the wrappers *)

(** ** The count a framed read reports *)

Lemma Uint16_range (bb : list byte) : (0 <= Uint16 bb <= MaxUint16)%Z.
Proof.
  unfold Uint16, MaxUint16.
  pose proof (Byte.to_N_bounded (nth 1 bb x00)) as H1.
  pose proof (Byte.to_N_bounded (nth 0 bb x00)) as H0.
  rewrite lor_shiftl_8; unfold Z_of_byte; lia.
Qed.

Lemma copy_count (dst src : list byte) :
  snd (copy dst src) = Nat.min (length dst) (length src).
Proof. reflexivity. Qed.

Section ReadCount.
Context {T : Type} `{Transport T} `{BufPool} {M : Type}.

Lemma bindUDP_Read_count (k : bindUDPConn.t T M) (b : list byte) :
  fst (fst (fst (bindUDPConn.Read k b))) <= length b
  /\ (Z.of_nat (fst (fst (fst (bindUDPConn.Read k b)))) <= MaxUint16)%Z.
Proof.
  unfold bindUDPConn.Read.
  destruct (io_ReadFull (bindUDPConn.Conn k) 2) as [[bh [e|]] t1].
  - cbn [fst]. split; [lia|unfold MaxUint16; cbn; lia].
  - pose proof (Uint16_range bh) as Hr.
    destruct (Nat.leb_spec (Z.to_nat (Uint16 bh)) (length b)) as [Hle|Hgt].
    + pose proof (io_ReadFull_le t1 (Z.to_nat (Uint16 bh))) as Hd.
      destruct (io_ReadFull t1 (Z.to_nat (Uint16 bh))) as [[d e] t2].
      cbn [fst snd] in *. split; lia.
    + cbv zeta.
      destruct (io_ReadFull t1 (length (bufpool_Get (Z.to_nat (Uint16 bh)))))
        as [[d e] t2].
      pose proof (copy_count b (fst (copy (bufpool_Get (Z.to_nat (Uint16 bh))) d)))
        as Hc.
      destruct (copy b (fst (copy (bufpool_Get (Z.to_nat (Uint16 bh))) d)))
        as [b1 n].
      cbn [fst snd] in *. split; lia.
Qed.
End ReadCount.

Lemma udp_Read_count {T : Type} `{Transport T} `{Protocol} `{BufPool}
    (c : udpConn.t T) (b : list byte) :
  fst (fst (fst (udpConn.Read c b))) <= length b
  /\ (Z.of_nat (fst (fst (fst (udpConn.Read c b)))) <= MaxUint16)%Z.
Proof.
  rewrite udp_Read_split.
  destruct (deferred_check _ _ _) as [[e|] conn1].
  - cbn [fst]. split; [lia|unfold MaxUint16; cbn; lia].
  - pose proof (bindUDP_Read_count (bindUDPConn.mk conn1 "" "" tt) b) as Hs.
    destruct (bindUDPConn.Read _ b) as [res k]. exact Hs.
Qed.

(** X2: on every transport, the framed [Read] of the datagram relay
    connection and of the bound datagram connection reports a count that is
    no larger than the caller's buffer and never above 65535, whatever the
    header on the wire, the outcome of the response check and of the
    transport reads, and the contents of the pooled scratch buffer. *)
Theorem framed_Read_count_bounded :
  forall (T : Type) (HT : Transport T) (HP : Protocol) (HB : BufPool) (M : Type)
         (u : udpConn.t T) (k : bindUDPConn.t T M) (b : list byte),
    (fst (fst (fst (udpConn.Read u b))) <= length b
     /\ (Z.of_nat (fst (fst (fst (udpConn.Read u b)))) <= MaxUint16)%Z)
    /\ (fst (fst (fst (bindUDPConn.Read k b))) <= length b
        /\ (Z.of_nat (fst (fst (fst (bindUDPConn.Read k b)))) <= MaxUint16)%Z).
Proof.
  intros T HT HP HB M u k b. split.
  - apply udp_Read_count.
  - apply bindUDP_Read_count.
Qed.

(** ** A failed response check *)

Section FailedCheck.
Context {T : Type} `{Transport T} `{Protocol} `{BufPool}.

(** A read of a connection whose [sync.Once] has fired is the bare transport
    read. *)
Lemma tcp_Read_after_once (c : tcpConn.t T) (b : list byte) :
  tcpConn.once c = true ->
  tcpConn.Read c b
  = let '(d, e, conn2) := conn_Read (tcpConn.Conn c) (length b) in
    ((length d, e, fst (copy b d)), tcpConn.mk conn2 (tcpConn.wbuf c) true).
Proof. intros Hc. unfold tcpConn.Read. rewrite Hc. reflexivity. Qed.

Lemma udp_Read_after_once (c : udpConn.t T) (b : list byte) :
  udpConn.once c = true ->
  udpConn.Read c b
  = let '(res, k) := bindUDPConn.Read (bindUDPConn.mk (udpConn.Conn c) "" "" tt) b in
    (res, udpConn.mk (bindUDPConn.Conn k) (udpConn.wbuf c) true).
Proof.
  intros Hc. rewrite udp_Read_split. unfold deferred_check. rewrite Hc.
  reflexivity.
Qed.
End FailedCheck.

(** X3: when the response check of the first [Read] fails with [e], that read
    returns count zero and [e], leaves the caller's buffer alone and reads
    nothing beyond the response; the failure is not remembered: the next
    [Read] is the bare transport read on the stream connection and the bare
    framed read on the datagram connection, with no check and no error of
    its own. *)
Theorem failed_check_is_reported_once :
  forall (T : Type) (HT : Transport T) (HP : Protocol) (HB : BufPool)
         (conn t1 : T) (w : Buffer) (e : error) (b1 b2 : list byte),
    readResponse conn = (Some e, t1) ->
    let c := tcpConn.mk conn (Some w) false in
    let u := udpConn.mk conn (Some w) false in
    (tcpConn.Read c b1 = ((0, Some e, b1), tcpConn.mk t1 (Some w) true)
     /\ tcpConn.Read (snd (tcpConn.Read c b1)) b2
        = let '(d, e2, t2) := conn_Read t1 (length b2) in
          ((length d, e2, fst (copy b2 d)), tcpConn.mk t2 (Some w) true))
    /\ (udpConn.Read u b1 = ((0, Some e, b1), udpConn.mk t1 (Some w) true)
        /\ udpConn.Read (snd (udpConn.Read u b1)) b2
           = let '(res, k) := bindUDPConn.Read (bindUDPConn.mk t1 "" "" tt) b2 in
             (res, udpConn.mk (bindUDPConn.Conn k) (Some w) true)).
Proof.
  intros T HT HP HB conn t1 w e b1 b2 Hr c u.
  assert (Ht : tcpConn.Read c b1 = ((0, Some e, b1), tcpConn.mk t1 (Some w) true)).
  { unfold tcpConn.Read, c. cbn [tcpConn.once tcpConn.wbuf tcpConn.Conn].
    rewrite Hr. reflexivity. }
  assert (Hu : udpConn.Read u b1 = ((0, Some e, b1), udpConn.mk t1 (Some w) true)).
  { unfold udpConn.Read, u. cbn [udpConn.once udpConn.wbuf udpConn.Conn].
    rewrite Hr. reflexivity. }
  split.
  - split; [exact Ht|]. rewrite Ht. cbn [snd].
    apply (tcp_Read_after_once (tcpConn.mk t1 (Some w) true) b2 eq_refl).
  - split; [exact Hu|]. rewrite Hu. cbn [snd].
    apply (udp_Read_after_once (udpConn.mk t1 (Some w) true) b2 eq_refl).
Qed.

(** A response of version 9 followed by one byte of data. *)
Lemma failed_check_is_reported_once_witness :
  let conn := pipe [x09; x00; x41] [] in
  let t1 := mkPipe [x41] [] [] [] 1 "10.0.0.1:40000" "10.0.0.2:8421" in
  let c := tcpConn.mk conn (Some []) false in
  tcpConn.Read c [x00; x00] = ((0, Some ErrBadVersion, [x00; x00]), tcpConn.mk t1 (Some []) true)
  /\ fst (tcpConn.Read (snd (tcpConn.Read c [x00; x00])) [x00; x00]) = (1, None, [x41; x00]).
Proof.
  intros conn t1 c.
  assert (Hr : readResponse conn = (Some ErrBadVersion, t1)) by reflexivity.
  destruct (@failed_check_is_reported_once Pipe _ relay_Protocol dirty_BufPool
              conn t1 [] ErrBadVersion [x00; x00] [x00; x00] Hr)
    as [[Ha Hb] _].
  split; [exact Ha|]. exact (f_equal fst Hb).
Defined.

(** ** The count a datagram write reports *)

Section UdpWriteCount.
Context {T : Type} `{Transport T}.

Lemma udp_Write_count_le (c : udpConn.t T) (b : list byte) :
  fst (fst (udpConn.Write c b)) <= length b.
Proof.
  unfold udpConn.Write.
  destruct (Z.of_nat (length b) >? MaxUint16)%Z; [cbn; lia|].
  assert (Hdirect :
    fst (fst (let '(_, err, conn1) :=
                conn_Write (udpConn.Conn c) (PutUint16 (uint16 (Z.of_nat (length b)))) in
              match err with
              | Some e => ((length b, Some e), udpConn.mk conn1 (udpConn.wbuf c) (udpConn.once c))
              | None =>
                  let '(m, err0, conn2) := conn_Write conn1 b in
                  ((m, err0), udpConn.mk conn2 (udpConn.wbuf c) (udpConn.once c))
              end)) <= length b).
  { destruct (conn_Write (udpConn.Conn c) _) as [[m0 [e0|]] conn1]; [cbn; lia|].
    pose proof (conn_Write_le conn1 b) as Hle.
    destruct (conn_Write conn1 b) as [[m e] conn2]. exact Hle. }
  cbv zeta.
  destruct (udpConn.wbuf c) as [w|]; [|exact Hdirect].
  destruct (0 <? length w); [|exact Hdirect].
  destruct (Buffer_WriteTo _ _) as [[err w2] conn1]. cbn. lia.
Qed.

Lemma udp_Write_oversize_fails (c : udpConn.t T) (b : list byte) :
  snd (fst (udpConn.Write c b)) = None -> (Z.of_nat (length b) <= MaxUint16)%Z.
Proof.
  unfold udpConn.Write.
  destruct (Z.gtb_spec (Z.of_nat (length b)) MaxUint16) as [Hgt|Hle];
    [discriminate|intros _; exact Hle].
Qed.
End UdpWriteCount.

(** X4: on every transport that keeps the writer's contract, [Write] on the
    datagram relay connection never reports more than the payload length,
    and reports exactly the payload length whenever it returns no error,
    with a header pending or not. *)
Theorem udpConn_Write_count :
  forall (T : Type) (HT : Transport T) (c : udpConn.t T) (b : list byte),
    fst (fst (udpConn.Write c b)) <= length b
    /\ (snd (fst (udpConn.Write c b)) = None ->
        fst (fst (udpConn.Write c b)) = length b).
Proof.
  intros T HT c b. split; [apply udp_Write_count_le|].
  intros He. apply udp_Write_count; [|exact He].
  apply (udp_Write_oversize_fails c b He).
Qed.

(** A successful write with a header pending, and a write cut short by the
    transport. *)
Lemma udpConn_Write_count_witness :
  let c := udpConn.mk (pipe [] []) (Some [xaa]) false in
  let d := udpConn.mk (pipe [] [None; Some (1, netError "reset")]) None false in
  fst (fst (udpConn.Write c [x01; x02; x03])) = 3
  /\ fst (fst (udpConn.Write d [x01; x02; x03])) <= 3.
Proof.
  intros c d. split.
  - exact (proj2 (@udpConn_Write_count Pipe _ c [x01; x02; x03]) eq_refl).
  - exact (proj1 (@udpConn_Write_count Pipe _ d [x01; x02; x03])).
Defined.

(** X5: on the datagram relay connection with no header pending, when the
    transport fails the write of the length prefix the payload is never
    handed to the transport, and the call returns that error together with
    the full payload length as its count. *)
Theorem udpConn_Write_stops_after_failed_prefix :
  forall (T : Type) (HT : Transport T) (c : udpConn.t T) (b : list byte) (e : error),
    (Z.of_nat (length b) <= MaxUint16)%Z ->
    udpConn.wbuf c = None \/ udpConn.wbuf c = Some [] ->
    snd (fst (conn_Write (udpConn.Conn c) (PutUint16 (Z.of_nat (length b))))) = Some e ->
    udpConn.Write c b
    = ((length b, Some e),
       udpConn.mk (snd (conn_Write (udpConn.Conn c) (PutUint16 (Z.of_nat (length b)))))
                  (udpConn.wbuf c) (udpConn.once c)).
Proof.
  intros T HT c b e Hb Hw He.
  rewrite (udp_Write_direct c b Hb Hw).
  rewrite uint16_small by lia.
  destruct (conn_Write (udpConn.Conn c) (PutUint16 (Z.of_nat (length b))))
    as [[m0 e0] conn1].
  cbn [fst snd] in *. subst e0. reflexivity.
Qed.

(** The transport takes one byte of the prefix and fails: the three payload
    bytes are never offered, yet the count is three. *)
Lemma udpConn_Write_stops_after_failed_prefix_witness :
  let c := udpConn.mk (pipe [] [Some (1, netError "broken pipe")]) None false in
  fst (udpConn.Write c [x01; x02; x03]) = (3, Some (netError "broken pipe"))
  /\ calls (udpConn.Conn (snd (udpConn.Write c [x01; x02; x03]))) = [[x00; x03]]
  /\ wire (udpConn.Conn (snd (udpConn.Write c [x01; x02; x03]))) = [x00].
Proof.
  intros c.
  assert (Hb : (Z.of_nat (length [x01; x02; x03]) <= MaxUint16)%Z)
    by (vm_compute; discriminate).
  pose proof (@udpConn_Write_stops_after_failed_prefix Pipe _ c [x01; x02; x03]
                (netError "broken pipe") Hb (or_introl eq_refl) eq_refl) as Hw.
  split; [exact (f_equal fst Hw)|].
  split; [exact (f_equal (fun r => calls (udpConn.Conn (snd r))) Hw)
         |exact (f_equal (fun r => wire (udpConn.Conn (snd r))) Hw)].
Defined.

(** ** Reads and writes keep out of each other's state *)

Section Independence.
Context {T : Type} `{Transport T} `{Protocol} `{BufPool}.

Lemma tcp_Read_wbuf (c : tcpConn.t T) (b : list byte) :
  tcpConn.wbuf (snd (tcpConn.Read c b)) = tcpConn.wbuf c.
Proof.
  unfold tcpConn.Read.
  destruct (if tcpConn.once c then _ else _) as [[e|] conn1]; [reflexivity|].
  destruct (conn_Read conn1 (length b)) as [[d e] conn2]. reflexivity.
Qed.

Lemma tcp_Write_once (c : tcpConn.t T) (b : list byte) :
  tcpConn.once (snd (tcpConn.Write c b)) = tcpConn.once c.
Proof.
  unfold tcpConn.Write.
  assert (Hd : tcpConn.once (snd (let '(_, err, conn1) := conn_Write (tcpConn.Conn c) b in
                  ((length b, err), tcpConn.mk conn1 (tcpConn.wbuf c) (tcpConn.once c))))
               = tcpConn.once c).
  { destruct (conn_Write (tcpConn.Conn c) b) as [[m e] conn1]. reflexivity. }
  cbv zeta. destruct (tcpConn.wbuf c) as [w|]; [|exact Hd].
  destruct (0 <? length w); [|exact Hd].
  destruct (conn_Write (tcpConn.Conn c) (Buffer_Write w b)) as [[m e] conn1].
  reflexivity.
Qed.

Lemma udp_Write_once (c : udpConn.t T) (b : list byte) :
  udpConn.once (snd (udpConn.Write c b)) = udpConn.once c.
Proof.
  unfold udpConn.Write.
  destruct (Z.of_nat (length b) >? MaxUint16)%Z; [reflexivity|].
  assert (Hd : udpConn.once (snd (
               let '(_, err, conn1) :=
                 conn_Write (udpConn.Conn c) (PutUint16 (uint16 (Z.of_nat (length b)))) in
               match err with
               | Some e => ((length b, Some e), udpConn.mk conn1 (udpConn.wbuf c) (udpConn.once c))
               | None =>
                   let '(m, err0, conn2) := conn_Write conn1 b in
                   ((m, err0), udpConn.mk conn2 (udpConn.wbuf c) (udpConn.once c))
               end)) = udpConn.once c).
  { destruct (conn_Write (udpConn.Conn c) _) as [[m0 [e0|]] conn1]; [reflexivity|].
    destruct (conn_Write conn1 b) as [[m e] conn2]. reflexivity. }
  cbv zeta. destruct (udpConn.wbuf c) as [w|]; [|exact Hd].
  destruct (0 <? length w); [|exact Hd].
  destruct (Buffer_WriteTo _ _) as [[err w2] conn1]. reflexivity.
Qed.

Lemma tcp_Reads_wbuf (bs : list (list byte)) :
  forall c : tcpConn.t T, tcpConn.wbuf (tcp_Reads c bs) = tcpConn.wbuf c.
Proof.
  induction bs as [|b bs IH]; intros c; [reflexivity|].
  change (tcp_Reads c (b :: bs)) with (tcp_Reads (snd (tcpConn.Read c b)) bs).
  rewrite IH. apply tcp_Read_wbuf.
Qed.

Lemma udp_Reads_wbuf (bs : list (list byte)) :
  forall c : udpConn.t T, udpConn.wbuf (udp_Reads c bs) = udpConn.wbuf c.
Proof.
  induction bs as [|b bs IH]; intros c; [reflexivity|].
  change (udp_Reads c (b :: bs)) with (udp_Reads (snd (udpConn.Read c b)) bs).
  rewrite IH. apply udp_Read_once.
Qed.

Lemma tcp_Writes_once (bs : list (list byte)) :
  forall c : tcpConn.t T, tcpConn.once (tcp_Writes c bs) = tcpConn.once c.
Proof.
  induction bs as [|b bs IH]; intros c; [reflexivity|].
  change (tcp_Writes c (b :: bs)) with (tcp_Writes (snd (tcpConn.Write c b)) bs).
  rewrite IH. apply tcp_Write_once.
Qed.

Lemma udp_Writes_once (bs : list (list byte)) :
  forall c : udpConn.t T, udpConn.once (udp_Writes c bs) = udpConn.once c.
Proof.
  induction bs as [|b bs IH]; intros c; [reflexivity|].
  change (udp_Writes c (b :: bs)) with (udp_Writes (snd (udpConn.Write c b)) bs).
  rewrite IH. apply udp_Write_once.
Qed.
End Independence.

(** X6: on every transport, no run of reads changes the pending header, so
    on the stream connection a header pending before the reads goes out,
    whole, with the first write after them; and no run of writes fires the
    [sync.Once]. *)
Theorem reads_keep_header_writes_keep_once :
  forall (T : Type) (HT : Transport T) (HP : Protocol) (HB : BufPool)
         (c : tcpConn.t T) (u : udpConn.t T) (bs : list (list byte)),
    (tcpConn.wbuf (tcp_Reads c bs) = tcpConn.wbuf c
     /\ tcpConn.once (tcp_Writes c bs) = tcpConn.once c
     /\ forall Hd P, tcpConn.wbuf c = Some Hd -> Hd <> [] ->
          tcpConn.Conn (snd (tcpConn.Write (tcp_Reads c bs) P))
          = snd (conn_Write (tcpConn.Conn (tcp_Reads c bs)) (Hd ++ P)))
    /\ (udpConn.wbuf (udp_Reads u bs) = udpConn.wbuf u
        /\ udpConn.once (udp_Writes u bs) = udpConn.once u).
Proof.
  intros T HT HP HB c u bs. split.
  - split; [apply tcp_Reads_wbuf|]. split; [apply tcp_Writes_once|].
    intros Hd P Hw Hne.
    assert (Hw' : tcpConn.wbuf (tcp_Reads c bs) = Some Hd)
      by (rewrite tcp_Reads_wbuf; exact Hw).
    rewrite (tcp_Write_coalesced (tcp_Reads c bs) P Hw' Hne). reflexivity.
  - split; [apply udp_Reads_wbuf|apply udp_Writes_once].
Qed.

(** Two reads, one of them failing its check, then the first write. *)
Lemma reads_keep_header_writes_keep_once_witness :
  let c := tcpConn.mk (pipe [x09; x00; x41] []) (Some [xaa; xbb]) false in
  let bs := [[x00]; [x00]] in
  tcpConn.wbuf (tcp_Reads c bs) = Some [xaa; xbb]
  /\ calls (tcpConn.Conn (snd (tcpConn.Write (tcp_Reads c bs) [x01])))
     = [[xaa; xbb; x01]].
Proof.
  intros c bs.
  assert (Hne : [xaa; xbb] <> []) by discriminate.
  destruct (@reads_keep_header_writes_keep_once Pipe _ relay_Protocol dirty_BufPool
              c (udpConn.mk (pipe [] []) None false) bs) as [(H1 & _ & H3) _].
  split; [exact H1|].
  exact (f_equal calls (H3 [xaa; xbb] [x01] eq_refl Hne)).
Defined.

(** ** Metadata of the bound connections *)

Section BoundMetadata.
Context {T : Type} `{Transport T} `{BufPool} {M : Type}.

Lemma bindUDPConn_Read_md (c : bindUDPConn.t T M) (b : list byte) :
  bindUDPConn.md (snd (bindUDPConn.Read c b)) = bindUDPConn.md c.
Proof.
  unfold bindUDPConn.Read.
  destruct (io_ReadFull (bindUDPConn.Conn c) 2) as [[bh [e|]] t1]; [reflexivity|].
  destruct (Z.to_nat (Uint16 bh) <=? length b).
  - destruct (io_ReadFull t1 (Z.to_nat (Uint16 bh))) as [[d e] t2]. reflexivity.
  - cbv zeta. destruct (io_ReadFull t1 _) as [[d e] t2].
    destruct (copy b _) as [b1 n]. reflexivity.
Qed.

Lemma bindUDPConn_Write_md (c : bindUDPConn.t T M) (b : list byte) :
  bindUDPConn.md (snd (bindUDPConn.Write c b)) = bindUDPConn.md c.
Proof.
  unfold bindUDPConn.Write.
  destruct (Z.of_nat (length b) >? MaxUint16)%Z; [reflexivity|].
  cbv zeta. destruct (copy _ b) as [tl n].
  destruct (conn_Write (bindUDPConn.Conn c) _) as [[m e] t1]. reflexivity.
Qed.
End BoundMetadata.

(** X7: the metadata a bound connection or a bound datagram connection was
    wrapped with is what [Metadata] returns, before and after every read and
    write, [ReadFrom] and [WriteTo] included, on every transport. *)
Theorem bound_metadata_fixed :
  forall (T : Type) (HT : Transport T) (HB : BufPool) (M : Type)
         (conn : T) (la ra : Addr) (md : M) (b : list byte) (a : Addr),
    let c := bindConn.mk conn la ra md in
    let k := bindUDPConn.mk conn la ra md in
    (bindConn.Metadata_ c = md
     /\ bindConn.Metadata_ (snd (bindConn.Read c b)) = md
     /\ bindConn.Metadata_ (snd (bindConn.Write c b)) = md)
    /\ (bindUDPConn.Metadata_ k = md
        /\ bindUDPConn.Metadata_ (snd (bindUDPConn.Read k b)) = md
        /\ bindUDPConn.Metadata_ (snd (bindUDPConn.Write k b)) = md
        /\ bindUDPConn.Metadata_ (snd (bindUDPConn.ReadFrom k b)) = md
        /\ bindUDPConn.Metadata_ (snd (bindUDPConn.WriteTo k b a)) = md).
Proof.
  intros T HT HB M conn la ra md b a c k. split.
  - split; [reflexivity|]. unfold bindConn.Metadata_, bindConn.Read, bindConn.Write.
    destruct (conn_Read (bindConn.Conn c) (length b)) as [[d e] t1].
    destruct (conn_Write (bindConn.Conn c) b) as [[n e'] t2].
    split; reflexivity.
  - split; [reflexivity|]. unfold bindUDPConn.Metadata_.
    pose proof (bindUDPConn_Read_md k b) as Hr.
    pose proof (bindUDPConn_Write_md k b) as Hw.
    split; [exact Hr|]. split; [exact Hw|]. split; [|exact Hw].
    unfold bindUDPConn.ReadFrom.
    destruct (bindUDPConn.Read k b) as [[[n err] b1] k1]. exact Hr.
Qed.

(** ** The two directions of the in-memory transport *)

(** The write side of a pipe and its read side. *)
Definition tx_side (q : Pipe) : list (list byte) * list byte * list (option (nat * error)) :=
  (calls q, wire q, plan q).

Definition rx_side (q : Pipe) : list byte * nat := (rx q, handshakes q).

Lemma Pipe_Read_tx (q : Pipe) (n : nat) : tx_side (snd (Pipe_Read q n)) = tx_side q.
Proof.
  unfold Pipe_Read. destruct (n =? 0); [reflexivity|].
  destruct (rx q); reflexivity.
Qed.

Lemma Pipe_ReadFull_tx (q : Pipe) (n : nat) :
  tx_side (snd (Pipe_ReadFull q n)) = tx_side q.
Proof.
  unfold Pipe_ReadFull. destruct (n =? 0); [reflexivity|].
  destruct (n <=? length (rx q)); [reflexivity|].
  destruct (rx q); reflexivity.
Qed.

Lemma Pipe_ReadFrom_tx (q : Pipe) : tx_side (snd (Pipe_ReadFrom q)) = tx_side q.
Proof.
  unfold Pipe_ReadFrom. pose proof (Pipe_ReadFull_tx q 2) as Hh.
  destruct (Pipe_ReadFull q 2) as [[d [e|]] q1]; exact Hh.
Qed.

Lemma Pipe_Write_rx (q : Pipe) (b : list byte) :
  rx_side (snd (Pipe_Write q b)) = rx_side q.
Proof.
  unfold Pipe_Write. destruct (plan q) as [|[[k e]|] rest]; reflexivity.
Qed.

Section Directions.
Context `{Protocol} `{BufPool}.

Lemma deferred_check_tx (o : bool) (w : option Buffer) (q : Pipe) :
  tx_side (snd (deferred_check o w q)) = tx_side q.
Proof.
  unfold deferred_check. destruct o; [reflexivity|].
  destruct w; [|reflexivity]. rewrite readResponse_conn. apply Pipe_ReadFrom_tx.
Qed.

Lemma bindUDP_Read_tx {M : Type} (k : bindUDPConn.t Pipe M) (b : list byte) :
  tx_side (bindUDPConn.Conn (snd (bindUDPConn.Read k b))) = tx_side (bindUDPConn.Conn k).
Proof.
  unfold bindUDPConn.Read. cbn [io_ReadFull Pipe_Transport].
  pose proof (Pipe_ReadFull_tx (bindUDPConn.Conn k) 2) as H2.
  destruct (Pipe_ReadFull (bindUDPConn.Conn k) 2) as [[bh [e|]] q1]; cbn [snd] in H2;
    [exact H2|].
  destruct (Z.to_nat (Uint16 bh) <=? length b).
  - pose proof (Pipe_ReadFull_tx q1 (Z.to_nat (Uint16 bh))) as H3.
    destruct (Pipe_ReadFull q1 _) as [[d e] q2]. cbn [snd] in *.
    cbn. congruence.
  - cbv zeta.
    pose proof (Pipe_ReadFull_tx q1 (length (bufpool_Get (Z.to_nat (Uint16 bh))))) as H3.
    destruct (Pipe_ReadFull q1 _) as [[d e] q2].
    destruct (copy b _) as [b1 n]. cbn [snd] in *. cbn. congruence.
Qed.

Lemma udp_Read_tx (c : udpConn.t Pipe) (b : list byte) :
  tx_side (udpConn.Conn (snd (udpConn.Read c b))) = tx_side (udpConn.Conn c).
Proof.
  rewrite udp_Read_split.
  pose proof (deferred_check_tx (udpConn.once c) (udpConn.wbuf c) (udpConn.Conn c)) as Hd.
  destruct (deferred_check _ _ _) as [[e|] q1]; cbn [snd] in Hd; [exact Hd|].
  pose proof (bindUDP_Read_tx (bindUDPConn.mk q1 "" "" tt) b) as Hf.
  destruct (bindUDPConn.Read _ b) as [res k]. cbn in *. congruence.
Qed.

Lemma tcp_Read_tx (c : tcpConn.t Pipe) (b : list byte) :
  tx_side (tcpConn.Conn (snd (tcpConn.Read c b))) = tx_side (tcpConn.Conn c).
Proof.
  change (tcpConn.Read c b) with
    (let '(err, conn1) := deferred_check (tcpConn.once c) (tcpConn.wbuf c) (tcpConn.Conn c) in
     match err with
     | Some e => ((0, Some e, b), tcpConn.mk conn1 (tcpConn.wbuf c) true)
     | None =>
         let '(d, e, conn2) := conn_Read conn1 (length b) in
         ((length d, e, fst (copy b d)), tcpConn.mk conn2 (tcpConn.wbuf c) true)
     end).
  pose proof (deferred_check_tx (tcpConn.once c) (tcpConn.wbuf c) (tcpConn.Conn c)) as Hd.
  destruct (deferred_check _ _ _) as [[e|] q1]; cbn [snd] in Hd; [exact Hd|].
  cbn [conn_Read Pipe_Transport].
  pose proof (Pipe_Read_tx q1 (length b)) as Hr.
  destruct (Pipe_Read q1 (length b)) as [[d e] q2]. cbn in *. congruence.
Qed.
End Directions.

Lemma tcp_Write_rx (c : tcpConn.t Pipe) (b : list byte) :
  rx_side (tcpConn.Conn (snd (tcpConn.Write c b))) = rx_side (tcpConn.Conn c).
Proof.
  destruct (tcpConn.wbuf c) as [[|x w]|] eqn:Hw.
  - rewrite (tcp_Write_direct c b (or_intror Hw)). apply Pipe_Write_rx.
  - assert (Hne : x :: w <> []) by discriminate.
    rewrite (tcp_Write_coalesced c b Hw Hne). apply Pipe_Write_rx.
  - rewrite (tcp_Write_direct c b (or_introl Hw)). apply Pipe_Write_rx.
Qed.

Lemma Buffer_WriteTo_rx (w : Buffer) (q : Pipe) :
  rx_side (snd (Buffer_WriteTo w q)) = rx_side q.
Proof.
  unfold Buffer_WriteTo. destruct (0 <? length w); [|reflexivity].
  cbn [conn_Write Pipe_Transport].
  pose proof (Pipe_Write_rx q w) as Hq.
  destruct (Pipe_Write q w) as [[m [e|]] q1]; [exact Hq|].
  destruct (negb (m =? length w)); exact Hq.
Qed.

Lemma udp_Write_rx (c : udpConn.t Pipe) (b : list byte) :
  rx_side (udpConn.Conn (snd (udpConn.Write c b))) = rx_side (udpConn.Conn c).
Proof.
  destruct (Z.leb_spec (Z.of_nat (length b)) MaxUint16) as [Hb|Hb].
  - assert (Hdirect : udpConn.wbuf c = None \/ udpConn.wbuf c = Some [] ->
                      rx_side (udpConn.Conn (snd (udpConn.Write c b)))
                      = rx_side (udpConn.Conn c)).
    { intros Hw. rewrite (udp_Write_direct c b Hb Hw).
      cbn [conn_Write Pipe_Transport].
      pose proof (Pipe_Write_rx (udpConn.Conn c)
                    (PutUint16 (uint16 (Z.of_nat (length b))))) as H1.
      destruct (Pipe_Write (udpConn.Conn c) _) as [[m0 [e0|]] q1]; [exact H1|].
      pose proof (Pipe_Write_rx q1 b) as H2.
      destruct (Pipe_Write q1 b) as [[m e] q2]. cbn in *. congruence. }
    destruct (udpConn.wbuf c) as [[|x w]|] eqn:Hw.
    + apply Hdirect. right. reflexivity.
    + assert (Hne : x :: w <> []) by discriminate.
      rewrite (udp_Write_coalesced c b Hb Hw Hne).
      pose proof (Buffer_WriteTo_rx ((x :: w) ++ frame b) (udpConn.Conn c)) as H1.
      destruct (Buffer_WriteTo _ _) as [[err w2] q1]. exact H1.
    + apply Hdirect. left. reflexivity.
  - assert (Hgt : (Z.of_nat (length b) >? MaxUint16)%Z = true)
      by (apply Z.gtb_lt; lia).
    unfold udpConn.Write. rewrite Hgt. reflexivity.
Qed.

Lemma bindUDP_Write_rx `{BufPool} {M : Type} (k : bindUDPConn.t Pipe M) (b : list byte) :
  rx_side (bindUDPConn.Conn (snd (bindUDPConn.Write k b))) = rx_side (bindUDPConn.Conn k).
Proof.
  destruct (Z.leb_spec (Z.of_nat (length b)) MaxUint16) as [Hb|Hb].
  - rewrite (bindUDP_Write_frame k b Hb). cbn [conn_Write Pipe_Transport].
    pose proof (Pipe_Write_rx (bindUDPConn.Conn k) (frame b)) as H1.
    destruct (Pipe_Write (bindUDPConn.Conn k) (frame b)) as [[m e] q1]. exact H1.
  - assert (Hgt : (Z.of_nat (length b) >? MaxUint16)%Z = true)
      by (apply Z.gtb_lt; lia).
    unfold bindUDPConn.Write. rewrite Hgt. reflexivity.
Qed.

(** X8: on the in-memory transport no [Read] of any wrapper makes a transport
    write (the buffers handed over, the bytes on the wire and the script are
    as before), and no [Write] consumes input or runs the response check
    (the unread bytes and the count of response checks are as before). *)
Theorem reads_never_write_writes_never_read :
  forall (HP : Protocol) (HB : BufPool) (M : Type)
         (c : tcpConn.t Pipe) (u : udpConn.t Pipe) (k : bindUDPConn.t Pipe M)
         (b : list byte),
    (tx_side (tcpConn.Conn (snd (tcpConn.Read c b))) = tx_side (tcpConn.Conn c)
     /\ tx_side (udpConn.Conn (snd (udpConn.Read u b))) = tx_side (udpConn.Conn u)
     /\ tx_side (bindUDPConn.Conn (snd (bindUDPConn.Read k b)))
        = tx_side (bindUDPConn.Conn k))
    /\ (rx_side (tcpConn.Conn (snd (tcpConn.Write c b))) = rx_side (tcpConn.Conn c)
        /\ rx_side (udpConn.Conn (snd (udpConn.Write u b))) = rx_side (udpConn.Conn u)
        /\ rx_side (bindUDPConn.Conn (snd (bindUDPConn.Write k b)))
           = rx_side (bindUDPConn.Conn k)).
Proof.
  intros HP HB M c u k b. split.
  - split; [apply tcp_Read_tx|]. split; [apply udp_Read_tx|apply bindUDP_Read_tx].
  - split; [apply tcp_Write_rx|]. split; [apply udp_Write_rx|apply bindUDP_Write_rx].
Qed.

(** ** Frames between the two ends of a tunnel *)

(** A run of writes on a bound datagram connection. *)
Definition bindUDP_Writes {T : Type} `{Transport T} `{BufPool} {M : Type}
    (k : bindUDPConn.t T M) (ps : list (list byte)) : bindUDPConn.t T M :=
  fold_left (fun k p => snd (bindUDPConn.Write k p)) ps k.

(** A run of reads on a bound datagram connection, one per buffer, with the
    results in order. *)
Fixpoint bindUDP_ReadAll {T : Type} `{Transport T} `{BufPool} {M : Type}
    (k : bindUDPConn.t T M) (bufs : list (list byte))
  : list (nat * option error * list byte) * bindUDPConn.t T M :=
  match bufs with
  | [] => ([], k)
  | b :: bufs' =>
      let '(r, k1) := bindUDPConn.Read k b in
      let '(rs, k2) := bindUDP_ReadAll k1 bufs' in
      (r :: rs, k2)
  end.

(** What a read that receives the payload [p] whole into [b] returns. *)
Definition received (p b : list byte) : nat * option error * list byte :=
  (length p, None, p ++ skipn (length p) b).

Section BoundOnPipe.
Context `{BufPool} {M : Type}.

Lemma bindUDP_Write_healthy (k : bindUDPConn.t Pipe M) (p : list byte) :
  (Z.of_nat (length p) <= MaxUint16)%Z ->
  healthy (bindUDPConn.Conn k) ->
  fst (bindUDPConn.Write k p) = (length p + 2, None)
  /\ wire (bindUDPConn.Conn (snd (bindUDPConn.Write k p)))
     = wire (bindUDPConn.Conn k) ++ frame p
  /\ calls (bindUDPConn.Conn (snd (bindUDPConn.Write k p)))
     = calls (bindUDPConn.Conn k) ++ [frame p]
  /\ healthy (bindUDPConn.Conn (snd (bindUDPConn.Write k p))).
Proof.
  intros Hp Hq. rewrite (bindUDP_Write_frame k p Hp).
  cbn [conn_Write Pipe_Transport].
  destruct (Pipe_Write_healthy (frame p) Hq) as (H1 & H2 & H3).
  pose proof (Pipe_Write_calls (bindUDPConn.Conn k) (frame p)) as H4.
  destruct (Pipe_Write (bindUDPConn.Conn k) (frame p)) as [[m e] q1].
  cbn [fst snd bindUDPConn.Conn bindUDPConn.with_Conn] in *.
  injection H1 as Hm He. subst m e.
  split.
  - f_equal. lia.
  - split; [exact H2|]. split; [exact H4|exact H3].
Qed.

Lemma put_on_wire_app (q q1 : Pipe) (l : list byte) :
  wire q1 = wire q ++ l -> put_on_wire q q1 = l.
Proof.
  intros Hw. unfold put_on_wire. rewrite Hw.
  rewrite skipn_app, Nat.sub_diag, skipn_all, skipn_O. reflexivity.
Qed.

Lemma bindUDP_Writes_healthy (ps : list (list byte)) :
  forall k : bindUDPConn.t Pipe M,
    Forall (fun p => (Z.of_nat (length p) <= MaxUint16)%Z) ps ->
    healthy (bindUDPConn.Conn k) ->
    wire (bindUDPConn.Conn (bindUDP_Writes k ps))
    = wire (bindUDPConn.Conn k) ++ concat (map frame ps)
    /\ calls (bindUDPConn.Conn (bindUDP_Writes k ps))
       = calls (bindUDPConn.Conn k) ++ map frame ps.
Proof.
  induction ps as [|p ps IH]; intros k Hps Hq.
  - cbn. rewrite !app_nil_r. split; reflexivity.
  - inversion Hps as [|p' ps' Hp Hrest]; subst.
    destruct (@bindUDP_Write_healthy k p Hp Hq) as (_ & H2 & H3 & H4).
    change (bindUDP_Writes k (p :: ps))
      with (bindUDP_Writes (snd (bindUDPConn.Write k p)) ps).
    destruct (IH (snd (bindUDPConn.Write k p)) Hrest H4) as [I1 I2].
    rewrite I1, I2, H2, H3. cbn [map concat].
    rewrite <- !app_assoc. split; reflexivity.
Qed.

Lemma bindUDP_ReadAll_frames (ps : list (list byte)) :
  forall (bufs : list (list byte)) (k : bindUDPConn.t Pipe M) (rest : list byte),
    Forall (fun p => (Z.of_nat (length p) <= MaxUint16)%Z) ps ->
    Forall2 (fun p b => length p <= length b) ps bufs ->
    rx (bindUDPConn.Conn k) = concat (map frame ps) ++ rest ->
    fst (bindUDP_ReadAll k bufs) = map (fun pb => received (fst pb) (snd pb)) (combine ps bufs)
    /\ rx (bindUDPConn.Conn (snd (bindUDP_ReadAll k bufs))) = rest.
Proof.
  induction ps as [|p ps IH]; intros bufs k rest Hps Hfit Hrx.
  - inversion Hfit; subst. cbn. split; [reflexivity|exact Hrx].
  - inversion Hfit as [|p' b ps' bufs' Hpb Hrest]; subst.
    inversion Hps as [|p' ps' Hp Hps']; subst.
    cbn [map concat] in Hrx. rewrite <- app_assoc in Hrx.
    cbn [bindUDP_ReadAll].
    rewrite (@bindUDP_Read_fits _ M k p b (concat (map frame ps) ++ rest) Hrx Hp Hpb).
    destruct (IH bufs' (bindUDPConn.with_Conn k
                          (set_rx (bindUDPConn.Conn k) (concat (map frame ps) ++ rest)))
                rest Hps' Hrest eq_refl) as [I1 I2].
    destruct (bindUDP_ReadAll _ bufs') as [rs k2].
    cbn [fst snd] in *. split; [|exact I2].
    cbn [combine map fst snd]. rewrite I1. reflexivity.
Qed.
End BoundOnPipe.

(** X9: a payload of at most 65535 bytes written on a bound datagram
    connection over a transport that takes its writes goes out as one
    transport write of the two-byte big-endian length followed by the
    payload; a framed read of those bytes into a buffer at least as long as
    the payload returns the payload, on a bound datagram connection and on
    a datagram relay connection alike. *)
Theorem bound_datagram_roundtrip :
  forall (HP : Protocol) (HB : BufPool) (M : Type)
         (k r : bindUDPConn.t Pipe M) (u : udpConn.t Pipe) (p b rest : list byte),
    (Z.of_nat (length p) <= MaxUint16)%Z ->
    healthy (bindUDPConn.Conn k) ->
    let sent := put_on_wire (bindUDPConn.Conn k)
                            (bindUDPConn.Conn (snd (bindUDPConn.Write k p))) in
    rx (bindUDPConn.Conn r) = sent ++ rest ->
    rx (udpConn.Conn u) = awaited_response u ++ sent ++ rest ->
    length p <= length b ->
    calls (bindUDPConn.Conn (snd (bindUDPConn.Write k p)))
    = calls (bindUDPConn.Conn k) ++ [PutUint16 (Z.of_nat (length p)) ++ p]
    /\ sent = PutUint16 (Z.of_nat (length p)) ++ p
    /\ (fst (bindUDPConn.Read r b) = received p b
        /\ rx (bindUDPConn.Conn (snd (bindUDPConn.Read r b))) = rest)
    /\ (fst (udpConn.Read u b) = received p b
        /\ rx (udpConn.Conn (snd (udpConn.Read u b))) = rest).
Proof.
  intros HP HB M k r u p b rest Hp Hq sent Hr Hu Hfit.
  destruct (@bindUDP_Write_healthy HB M k p Hp Hq) as (_ & H2 & H3 & _).
  assert (Hsent : sent = frame p) by (apply put_on_wire_app; exact H2).
  assert (Hfr : frame p = PutUint16 (Z.of_nat (length p)) ++ p).
  { unfold frame. rewrite uint16_small; [reflexivity|lia]. }
  rewrite Hsent in Hr, Hu |- *.
  split; [rewrite H3, Hfr; reflexivity|]. split; [exact Hfr|]. split.
  - rewrite (@bindUDP_Read_fits HB M r p b rest Hr Hp Hfit). split; reflexivity.
  - apply (@udp_Read_fits HP HB u p b rest Hu Hp Hfit).
Qed.

Lemma bound_datagram_roundtrip_witness :
  let k := bindUDPConn.mk (pipe [] []) "tunnel:1" "tunnel:2" tt in
  let r := bindUDPConn.mk (pipe [x00; x02; x68; x69; x00] []) "tunnel:2" "tunnel:1" tt in
  let u := udpConn.mk (pipe [x01; x00; x00; x02; x68; x69; x00] []) (Some []) false in
  let b := [xff; xff; xff] in
  calls (bindUDPConn.Conn (snd (bindUDPConn.Write k [x68; x69]))) = [[x00; x02; x68; x69]]
  /\ put_on_wire (bindUDPConn.Conn k) (bindUDPConn.Conn (snd (bindUDPConn.Write k [x68; x69])))
     = [x00; x02; x68; x69]
  /\ (fst (bindUDPConn.Read r b) = (2, None, [x68; x69; xff])
      /\ rx (bindUDPConn.Conn (snd (bindUDPConn.Read r b))) = [x00])
  /\ (fst (udpConn.Read u b) = (2, None, [x68; x69; xff])
      /\ rx (udpConn.Conn (snd (udpConn.Read u b))) = [x00]).
Proof.
  intros k r u b.
  apply (@bound_datagram_roundtrip relay_Protocol dirty_BufPool unit k r u
           [x68; x69] b [x00]).
  - vm_compute. discriminate.
  - constructor.
  - reflexivity.
  - reflexivity.
  - vm_compute. lia.
Defined.

(** X10: a payload of at most 65535 bytes written on a datagram relay
    connection with no header pending, over a transport that takes its
    writes, is returned whole by a framed read of those bytes on a bound
    datagram connection into a buffer at least as long as the payload. *)
Theorem relay_to_bound_roundtrip :
  forall (HB : BufPool) (M : Type)
         (c : udpConn.t Pipe) (r : bindUDPConn.t Pipe M) (p b rest : list byte),
    (Z.of_nat (length p) <= MaxUint16)%Z ->
    udpConn.wbuf c = None \/ udpConn.wbuf c = Some [] ->
    healthy (udpConn.Conn c) ->
    rx (bindUDPConn.Conn r)
    = put_on_wire (udpConn.Conn c) (udpConn.Conn (snd (udpConn.Write c p))) ++ rest ->
    length p <= length b ->
    fst (bindUDPConn.Read r b) = received p b
    /\ rx (bindUDPConn.Conn (snd (bindUDPConn.Read r b))) = rest.
Proof.
  intros HB M c r p b rest Hp Hw Hq Hr Hfit.
  destruct (@udp_Write_healthy c p Hp Hw Hq) as (_ & H2 & _).
  rewrite (@put_on_wire_app _ _ _ H2) in Hr.
  rewrite (@bindUDP_Read_fits HB M r p b rest Hr Hp Hfit). split; reflexivity.
Qed.

Lemma relay_to_bound_roundtrip_witness :
  let c := udpConn.mk (pipe [] []) None false in
  let r := bindUDPConn.mk (pipe [x00; x02; x68; x69] []) "tunnel:2" "tunnel:1" tt in
  fst (bindUDPConn.Read r [xff; xff; xff]) = (2, None, [x68; x69; xff])
  /\ rx (bindUDPConn.Conn (snd (bindUDPConn.Read r [xff; xff; xff]))) = [].
Proof.
  intros c r.
  apply (@relay_to_bound_roundtrip dirty_BufPool unit c r [x68; x69] [xff; xff; xff] []).
  - vm_compute. discriminate.
  - left. reflexivity.
  - constructor.
  - reflexivity.
  - vm_compute. lia.
Defined.

(** X11: a run of payloads, each of at most 65535 bytes, written on a bound
    datagram connection over a transport that takes its writes puts their
    frames on the wire back to back, one transport write per payload; a run
    of framed reads of those bytes, each into a buffer that holds its
    payload, returns the payloads one per read and in the order written. *)
Theorem datagram_boundaries_preserved :
  forall (HB : BufPool) (M : Type) (k r : bindUDPConn.t Pipe M)
         (ps bufs : list (list byte)) (rest : list byte),
    Forall (fun p => (Z.of_nat (length p) <= MaxUint16)%Z) ps ->
    Forall2 (fun p b => length p <= length b) ps bufs ->
    healthy (bindUDPConn.Conn k) ->
    rx (bindUDPConn.Conn r)
    = put_on_wire (bindUDPConn.Conn k) (bindUDPConn.Conn (bindUDP_Writes k ps)) ++ rest ->
    put_on_wire (bindUDPConn.Conn k) (bindUDPConn.Conn (bindUDP_Writes k ps))
    = concat (map frame ps)
    /\ calls (bindUDPConn.Conn (bindUDP_Writes k ps))
       = calls (bindUDPConn.Conn k) ++ map frame ps
    /\ fst (bindUDP_ReadAll r bufs)
       = map (fun pb => received (fst pb) (snd pb)) (combine ps bufs)
    /\ rx (bindUDPConn.Conn (snd (bindUDP_ReadAll r bufs))) = rest.
Proof.
  intros HB M k r ps bufs rest Hps Hfit Hq Hr.
  destruct (@bindUDP_Writes_healthy HB M ps k Hps Hq) as [H1 H2].
  rewrite (@put_on_wire_app _ _ _ H1) in Hr |- *.
  split; [reflexivity|]. split; [exact H2|].
  apply (@bindUDP_ReadAll_frames HB M ps bufs r rest Hps Hfit Hr).
Qed.

(** Three datagrams, the second one empty. *)
Lemma datagram_boundaries_preserved_witness :
  let k := bindUDPConn.mk (pipe [] []) "tunnel:1" "tunnel:2" tt in
  let r := bindUDPConn.mk (pipe [x00; x01; x61; x00; x00; x00; x02; x62; x63] [])
                          "tunnel:2" "tunnel:1" tt in
  let ps := [[x61]; []; [x62; x63]] in
  let bufs := [[xff; xff]; [xff; xff]; [xff; xff]] in
  put_on_wire (bindUDPConn.Conn k) (bindUDPConn.Conn (bindUDP_Writes k ps))
  = [x00; x01; x61; x00; x00; x00; x02; x62; x63]
  /\ calls (bindUDPConn.Conn (bindUDP_Writes k ps))
     = [[x00; x01; x61]; [x00; x00]; [x00; x02; x62; x63]]
  /\ fst (bindUDP_ReadAll r bufs)
     = [(1, None, [x61; xff]); (0, None, [xff; xff]); (2, None, [x62; x63])]
  /\ rx (bindUDPConn.Conn (snd (bindUDP_ReadAll r bufs))) = [].
Proof.
  intros k r ps bufs.
  apply (@datagram_boundaries_preserved dirty_BufPool unit k r ps bufs []).
  - repeat constructor; vm_compute; discriminate.
  - repeat constructor; vm_compute; lia.
  - constructor.
  - reflexivity.
Defined.

(** ** A failed coalesced write on the datagram connection *)

Section UdpRetry.

Lemma Pipe_Write_scripted (q : Pipe) (b : list byte) (k : nat) (e : error)
    (rest : list (option (nat * error))) :
  plan q = Some (k, e) :: rest ->
  Pipe_Write q b
  = (Nat.min k (length b), Some e,
     mkPipe (rx q) (calls q ++ [b]) (wire q ++ firstn k b) rest (handshakes q)
            (laddr q) (raddr q)).
Proof. intros Hp. unfold Pipe_Write. rewrite Hp. reflexivity. Qed.

Lemma udp_Write_coalesced_healthy (c : udpConn.t Pipe) (w b : list byte) :
  (Z.of_nat (length b) <= MaxUint16)%Z ->
  udpConn.wbuf c = Some w -> w <> [] ->
  healthy (udpConn.Conn c) ->
  fst (udpConn.Write c b) = (length b, None)
  /\ wire (udpConn.Conn (snd (udpConn.Write c b)))
     = wire (udpConn.Conn c) ++ w ++ frame b.
Proof.
  intros Hb Hw Hne Hq. rewrite (udp_Write_coalesced c b Hb Hw Hne).
  assert (Hne2 : w ++ frame b <> []).
  { intros E. apply app_eq_nil in E. destruct E as [E _]. exact (Hne E). }
  unfold Buffer_WriteTo. rewrite (nonempty_pending Hne2).
  cbn [conn_Write Pipe_Transport].
  destruct (Pipe_Write_healthy (w ++ frame b) Hq) as (H1 & H2 & _).
  destruct (Pipe_Write (udpConn.Conn c) (w ++ frame b)) as [[m e] q1].
  cbn [fst snd] in H1, H2. injection H1 as Hm He. subst m e.
  rewrite Nat.eqb_refl. cbn. split; [reflexivity|exact H2].
Qed.
End UdpRetry.

(** X12: on the datagram relay connection, when the coalesced first write
    fails after the transport took some of the bytes, the call returns the
    transport's error and keeps the bytes not taken; when the next write
    succeeds, the wire carries the header, the first frame and the second
    frame, each byte once and in order. *)
Theorem udpConn_failed_coalesced_Write_resumes :
  forall (u : udpConn.t Pipe) (Hd P P2 : list byte) (k : nat) (e : error)
         (rest : list (option (nat * error))),
    udpConn.wbuf u = Some Hd -> Hd <> [] ->
    (Z.of_nat (length P) <= MaxUint16)%Z ->
    (Z.of_nat (length P2) <= MaxUint16)%Z ->
    plan (udpConn.Conn u) = Some (k, e) :: rest ->
    Forall (fun o => o = None) rest ->
    let u1 := snd (udpConn.Write u P) in
    fst (udpConn.Write u P) = (length P, Some e)
    /\ udpConn.wbuf u1 = Some (skipn k (Hd ++ frame P))
    /\ fst (udpConn.Write u1 P2) = (length P2, None)
    /\ wire (udpConn.Conn (snd (udpConn.Write u1 P2)))
       = wire (udpConn.Conn u) ++ Hd ++ frame P ++ frame P2.
Proof.
  intros u Hd P P2 k e rest Hw Hne HP HP2 Hplan Hrest u1.
  set (w := Hd ++ frame P).
  assert (Hne2 : w <> []).
  { unfold w. intros E. apply app_eq_nil in E. destruct E as [E _]. exact (Hne E). }
  assert (Hu1 : udpConn.Write u P
                = ((length P, Some e),
                   udpConn.mk (mkPipe (rx (udpConn.Conn u)) (calls (udpConn.Conn u) ++ [w])
                                 (wire (udpConn.Conn u) ++ firstn k w) rest
                                 (handshakes (udpConn.Conn u))
                                 (laddr (udpConn.Conn u)) (raddr (udpConn.Conn u)))
                              (Some (skipn k w)) (udpConn.once u))).
  { rewrite (udp_Write_coalesced u P HP Hw Hne). fold w.
    unfold Buffer_WriteTo. rewrite (nonempty_pending Hne2).
    cbn [conn_Write Pipe_Transport].
    rewrite (Pipe_Write_scripted (udpConn.Conn u) w Hplan).
    assert (Hsk : skipn (Nat.min k (length w)) w = skipn k w).
    { destruct (Nat.le_ge_cases k (length w)) as [Hle|Hge].
      - rewrite Nat.min_l by exact Hle. reflexivity.
      - rewrite Nat.min_r by exact Hge.
        rewrite skipn_all, skipn_all2 by exact Hge. reflexivity. }
    rewrite Hsk. reflexivity. }
  unfold u1. rewrite Hu1. cbn [fst snd].
  split; [reflexivity|]. split; [reflexivity|].
  set (q1 := mkPipe _ _ _ rest _ _ _).
  assert (Hq1 : healthy q1) by exact Hrest.
  assert (Hwire : wire q1 ++ skipn k w = wire (udpConn.Conn u) ++ w).
  { unfold q1. cbn [wire]. rewrite <- app_assoc, firstn_skipn. reflexivity. }
  destruct (skipn k w) as [|x tl] eqn:Etail.
  - destruct (@udp_Write_healthy (udpConn.mk q1 (Some []) (udpConn.once u)) P2 HP2
                (or_intror eq_refl) Hq1) as (H1 & H2 & _).
    split; [exact H1|]. rewrite H2. cbn [udpConn.Conn].
    rewrite app_nil_r in Hwire. rewrite Hwire. unfold w.
    rewrite <- !app_assoc. reflexivity.
  - assert (Hne3 : x :: tl <> []) by discriminate.
    destruct (@udp_Write_coalesced_healthy
                (udpConn.mk q1 (Some (x :: tl)) (udpConn.once u)) (x :: tl) P2 HP2
                eq_refl Hne3 Hq1) as (H1 & H2).
    split; [exact H1|]. rewrite H2. cbn [udpConn.Conn].
    rewrite app_assoc, Hwire. unfold w. rewrite <- !app_assoc. reflexivity.
Qed.

(** The transport takes two of the five bytes and fails; the next write
    delivers the other three ahead of its own frame. *)
Lemma udpConn_failed_coalesced_Write_resumes_witness :
  let u := udpConn.mk (pipe [] [Some (2, netError "timeout")]) (Some [xaa; xbb]) false in
  let u1 := snd (udpConn.Write u [x01]) in
  fst (udpConn.Write u [x01]) = (1, Some (netError "timeout"))
  /\ udpConn.wbuf u1 = Some [x00; x01; x01]
  /\ fst (udpConn.Write u1 [x02]) = (1, None)
  /\ wire (udpConn.Conn (snd (udpConn.Write u1 [x02])))
     = [xaa; xbb; x00; x01; x01; x00; x01; x02].
Proof.
  intros u u1.
  assert (Hne : [xaa; xbb] <> []) by discriminate.
  assert (H1 : (Z.of_nat (length [x01]) <= MaxUint16)%Z) by (vm_compute; discriminate).
  assert (H2 : (Z.of_nat (length [x02]) <= MaxUint16)%Z) by (vm_compute; discriminate).
  exact (@udpConn_failed_coalesced_Write_resumes u [xaa; xbb] [x01] [x02] 2
           (netError "timeout") [] eq_refl Hne H1 H2 eq_refl (Forall_nil _)).
Defined.

(** ** Streams that end inside a frame *)

(** The error [io.ReadFull] gives when the stream ends before the buffer is
    full: [io.EOF] when it read nothing, [io.ErrUnexpectedEOF] otherwise. *)
Definition short_read_error (got : list byte) : error :=
  match got with
  | [] => EOF
  | _ => ErrUnexpectedEOF
  end.

Lemma Pipe_ReadFull_short (q : Pipe) (n : nat) :
  length (rx q) < n ->
  Pipe_ReadFull q n = (rx q, Some (short_read_error (rx q)), set_rx q []).
Proof.
  intros Hlt. unfold Pipe_ReadFull.
  destruct (Nat.eqb_spec n 0) as [Hz|Hnz]; [lia|].
  assert (Hle : (n <=? length (rx q)) = false) by (apply Nat.leb_gt; exact Hlt).
  rewrite Hle. destruct q as [r cs wr pl hs la ra]. cbn [rx] in *.
  destruct r; reflexivity.
Qed.

Section Truncated.
Context `{BufPool} {M : Type}.

(** The stream ends before a whole header arrived. *)
Lemma bindUDP_Read_no_header (k : bindUDPConn.t Pipe M) (b : list byte) :
  length (rx (bindUDPConn.Conn k)) < 2 ->
  bindUDPConn.Read k b
  = ((0, Some (short_read_error (rx (bindUDPConn.Conn k))), b),
     bindUDPConn.with_Conn k (set_rx (bindUDPConn.Conn k) [])).
Proof.
  intros Hlt. unfold bindUDPConn.Read. cbn [io_ReadFull Pipe_Transport].
  rewrite (Pipe_ReadFull_short (bindUDPConn.Conn k) Hlt). reflexivity.
Qed.


End Truncated.

(** X13: a framed [Read] on a stream that ends before a whole two-byte header
    arrived returns count zero and leaves the caller's buffer alone; the
    error is [io.EOF] when the stream ended on a frame boundary and
    [io.ErrUnexpectedEOF] when it ended after one header byte.  On the bound
    datagram connection and, behind its response check, on the datagram
    relay connection. *)
Theorem framed_Read_at_end_of_stream :
  forall (HP : Protocol) (HB : BufPool) (M : Type)
         (k : bindUDPConn.t Pipe M) (u : udpConn.t Pipe) (tail b : list byte),
    length tail < 2 ->
    rx (bindUDPConn.Conn k) = tail ->
    rx (udpConn.Conn u) = awaited_response u ++ tail ->
    fst (bindUDPConn.Read k b) = (0, Some (short_read_error tail), b)
    /\ fst (udpConn.Read u b) = (0, Some (short_read_error tail), b).
Proof.
  intros HP HB M k u tail b Hlt Hk Hu. split.
  - assert (Hlt' : length (rx (bindUDPConn.Conn k)) < 2) by (rewrite Hk; exact Hlt).
    rewrite (bindUDP_Read_no_header k b Hlt'), Hk. reflexivity.
  - rewrite udp_Read_split.
    destruct (deferred_check_awaited u tail Hu) as [He Hq].
    destruct (deferred_check _ _ _) as [err q1]. cbn [fst snd] in He, Hq. subst err.
    assert (Hlt' : length (rx (bindUDPConn.Conn (bindUDPConn.mk q1 "" "" tt))) < 2)
      by (cbn [bindUDPConn.Conn]; rewrite Hq; exact Hlt).
    rewrite (bindUDP_Read_no_header (bindUDPConn.mk q1 "" "" tt) b Hlt').
    cbn [bindUDPConn.Conn]. rewrite Hq. reflexivity.
Qed.

Lemma framed_Read_at_end_of_stream_witness :
  let k := bindUDPConn.mk (pipe [] []) "tunnel:1" "tunnel:2" tt in
  let u := udpConn.mk (pipe [x01; x00] []) (Some []) false in
  fst (bindUDPConn.Read k [xff]) = (0, Some EOF, [xff])
  /\ fst (udpConn.Read u [xff]) = (0, Some EOF, [xff]).
Proof.
  intros k u.
  apply (@framed_Read_at_end_of_stream relay_Protocol dirty_BufPool unit k u [] [xff]).
  - vm_compute. lia.
  - reflexivity.
  - reflexivity.
Defined.





(** ** The first read of the stream connection *)

(** The handshake bytes a stream connection still expects before its data. *)
Definition awaited_stream_response {T : Type} `{Protocol} (c : tcpConn.t T) : list byte :=
  if tcpConn.once c then []
  else match tcpConn.wbuf c with
       | Some _ => [Version1; StatusOK]
       | None => []
       end.

Lemma Pipe_Read_some (q : Pipe) (n : nat) :
  n <> 0 -> rx q <> [] ->
  Pipe_Read q n = (firstn n (rx q), None, set_rx q (skipn n (rx q))).
Proof.
  intros Hn Hrx. unfold Pipe_Read.
  destruct (Nat.eqb_spec n 0) as [Hz|_]; [contradiction|].
  destruct (rx q) eqn:E; [contradiction|]. reflexivity.
Qed.

(** X16: on the stream relay connection, with a good response waiting ahead
    of the data where a check is owed, a [Read] into a non-empty buffer
    returns the start of the data, as much as the buffer holds, and no byte
    of the response; the data that did not fit stays on the transport for
    the next read. *)
Theorem stream_Read_delivers_data_after_response :
  forall (HP : Protocol) (c : tcpConn.t Pipe) (data b : list byte),
    rx (tcpConn.Conn c) = awaited_stream_response c ++ data ->
    data <> [] -> b <> [] ->
    let n := Nat.min (length b) (length data) in
    fst (tcpConn.Read c b) = (n, None, firstn n data ++ skipn n b)
    /\ rx (tcpConn.Conn (snd (tcpConn.Read c b))) = skipn n data.
Proof.
  intros HP c data b Hrx Hdata Hb n.
  assert (Hchk : exists q1,
             (if tcpConn.once c then (None, tcpConn.Conn c)
              else match tcpConn.wbuf c with
                   | Some _ => readResponse (tcpConn.Conn c)
                   | None => (None, tcpConn.Conn c)
                   end) = (None, q1) /\ rx q1 = data).
  { unfold awaited_stream_response in Hrx.
    destruct (tcpConn.once c); [exists (tcpConn.Conn c); split; [reflexivity|exact Hrx]|].
    destruct (tcpConn.wbuf c) as [w|];
      [|exists (tcpConn.Conn c); split; [reflexivity|exact Hrx]].
    destruct (readResponse_good (tcpConn.Conn c) Hrx) as [He Hq].
    destruct (readResponse (tcpConn.Conn c)) as [err q1]. cbn [fst snd] in He, Hq.
    subst err. exists q1. split; [reflexivity|exact Hq]. }
  destruct Hchk as (q1 & Hc & Hq1).
  unfold tcpConn.Read. rewrite Hc. cbn [conn_Read Pipe_Transport].
  assert (Hlen : length b <> 0) by (destruct b; [contradiction|discriminate]).
  assert (Hne : rx q1 <> []) by (rewrite Hq1; exact Hdata).
  rewrite (Pipe_Read_some q1 Hlen Hne), Hq1.
  assert (Hfl : length (firstn (length b) data) = n)
    by (rewrite length_firstn; reflexivity).
  rewrite (copy_fits b (firstn (length b) data)) by (rewrite Hfl; unfold n; lia).
  cbn [fst snd tcpConn.Conn set_rx rx]. rewrite Hfl.
  assert (Hf : firstn (length b) data = firstn n data).
  { unfold n. destruct (Nat.le_ge_cases (length b) (length data)) as [Hle|Hge].
    - rewrite Nat.min_l by exact Hle. reflexivity.
    - rewrite Nat.min_r by exact Hge. rewrite !firstn_all2 by lia. reflexivity. }
  assert (Hs : skipn (length b) data = skipn n data).
  { unfold n. destruct (Nat.le_ge_cases (length b) (length data)) as [Hle|Hge].
    - rewrite Nat.min_l by exact Hle. reflexivity.
    - rewrite Nat.min_r by exact Hge. rewrite !skipn_all2 by lia. reflexivity. }
  rewrite Hf, Hs. split; reflexivity.
Qed.

Lemma stream_Read_delivers_data_after_response_witness :
  let c := tcpConn.mk (pipe [x01; x00; x68; x69; x21] []) (Some [xaa]) false in
  fst (tcpConn.Read c [xff; xff]) = (2, None, [x68; x69])
  /\ rx (tcpConn.Conn (snd (tcpConn.Read c [xff; xff]))) = [x21].
Proof.
  intros c.
  apply (@stream_Read_delivers_data_after_response relay_Protocol c
           [x68; x69; x21] [xff; xff]).
  - reflexivity.
  - discriminate.
  - discriminate.
Defined.
